(** * Contacts book REST API: data-access layer and routes

    A shallow embedding of [src/repository/contacts.py],
    [src/repository/users.py], [src/routes/contacts.py] and
    [src/routes/auth.py].

    The handlers are [async] functions over an SQLAlchemy session.  Each
    request runs alone on its session, so a handler is modelled as a
    state-passing computation over the storage ([World]) that either returns
    a value or raises a Python exception.  The storage survives an exception:
    a handler may commit and raise afterwards. *)

From Stdlib Require Import ZArith List String Ascii Bool Lia Permutation.
Import ListNotations.
Open Scope string_scope.
Open Scope Z_scope.

Set Warnings "-register-all".

(** ** Exceptions and outcomes *)

Inductive exn : Type :=
| NoResultFound
| MultipleResultsFound
| AttributeError
| IntegrityError
| DBAPIError
| MissingGreenlet
| HTTPException (status_code : Z) (detail : string).

Definition HTTP_400_BAD_REQUEST : Z := 400.
Definition HTTP_401_UNAUTHORIZED : Z := 401.
Definition HTTP_404_NOT_FOUND : Z := 404.
Definition HTTP_409_CONFLICT : Z := 409.

Inductive result (A : Type) : Type :=
| Ok (a : A)
| Raise (e : exn).

Arguments Ok {A} a.
Arguments Raise {A} e.

(** ** Calendar dates ([datetime.date]) *)

Record date : Type := mkDate { year : Z; month : Z; day : Z }.

Definition is_leap (y : Z) : bool :=
  (y mod 4 =? 0) && (negb (y mod 100 =? 0) || (y mod 400 =? 0)).

Definition days_in_month (y m : Z) : Z :=
  if m =? 2 then (if is_leap y then 29 else 28)
  else if (m =? 4) || (m =? 6) || (m =? 9) || (m =? 11) then 30
  else 31.

Definition next_day (d : date) : date :=
  if day d <? days_in_month (year d) (month d)
  then mkDate (year d) (month d) (day d + 1)
  else if month d <? 12
       then mkDate (year d) (month d + 1) 1
       else mkDate (year d + 1) 1 1.

(** [d + timedelta(days=n)] for a non-negative [n]. *)
Fixpoint add_days (n : nat) (d : date) : date :=
  match n with
  | O => d
  | S k => add_days k (next_day d)
  end.

(** ** Python values held by the attributes of a mapped object

    The attributes of a [Contact] instance are ordinary Python attributes:
    an assignment may store any value in them, a tuple included. *)

Inductive pyval : Type :=
| PNone
| PStr (s : string)
| PDate (d : date)
| PTuple (items : list pyval).

(** ** Request bodies ([src.schemas]) *)

Record ContactModel : Type := mkContactModel {
  cm_first_name : string;
  cm_last_name : string;
  cm_email : string;
  cm_phone : string;
  cm_birthday : date;
  cm_additional_note : option string
}.

Record UserSchema : Type := mkUserSchema {
  us_username : string;
  us_email : string;
  us_password : string
}.

Record OAuth2PasswordRequestForm : Type := mkLoginForm {
  form_username : string;
  form_password : string
}.

Record TokenSchema : Type := mkTokenSchema {
  access_token : string;
  ts_refresh_token : string;
  token_type : string
}.

(** ** Mapped rows ([src.database.models]) *)

Record Contact : Type := mkContact {
  id : Z;
  user_id : option Z;
  first_name : pyval;
  last_name : pyval;
  email : pyval;
  phone : pyval;
  birthday : pyval;
  additional_note : pyval
}.

Record User : Type := mkUser {
  u_id : Z;
  username : string;
  u_email : string;
  password : string;
  avatar : option string;
  refresh_token : option string;
  is_confirmed : bool
}.

(** What the declarations that are not among the sources fix
    ([src.database.models], [src.database.db]) and the handlers do not:
    whether the storage rejects a contact without owner; whether it rejects a
    value that does not have the type of its column; whether the session
    expires the loaded objects at a commit (the default of a session) or
    keeps their attributes; and the order in which the storage returns the
    rows of a statement that asks for none, as a rank of the rows.  The mocked
    session of [tests/test_unit_repository_contacts.py] rejects nothing and
    expires nothing. *)
Record Schema : Type := mkSchema {
  owner_required : bool;
  typed_columns : bool;
  expire_on_commit : bool;
  row_rank : Contact -> Z
}.

(** A background task: [send_email(email, username, host)]. *)
Record Task : Type := mkTask {
  task_email : string;
  task_username : string;
  task_host : string
}.

(** ** The storage and its surroundings *)

Record World : Type := mkWorld {
  schema : Schema;
  users : list User;
  contacts : list Contact;
  next_user_id : Z;
  next_contact_id : Z;
  today : date;
  background_tasks : list Task
}.

Definition set_users (w : World) (us : list User) : World :=
  mkWorld (schema w) us (contacts w) (next_user_id w) (next_contact_id w)
          (today w) (background_tasks w).

Definition set_contacts (w : World) (cs : list Contact) : World :=
  mkWorld (schema w) (users w) cs (next_user_id w) (next_contact_id w)
          (today w) (background_tasks w).

(** ** The handler monad *)

Definition M (A : Type) : Type := World -> result A * World.

Definition ret {A : Type} (a : A) : M A := fun w => (Ok a, w).

Definition raise {A : Type} (e : exn) : M A := fun w => (Raise e, w).

Definition bind {A B : Type} (m : M A) (f : A -> M B) : M B :=
  fun w =>
    match m w with
    | (Ok a, w') => f a w'
    | (Raise e, w') => (Raise e, w')
    end.

Notation "x <- m ;; k" := (bind m (fun x => k))
  (at level 61, m at next level, right associativity).
Notation "m ;;; k" := (bind m (fun _ => k))
  (at level 61, right associativity).

Definition get_world : M World := fun w => (Ok w, w).

Definition lift {A : Type} (r : result A) : M A := fun w => (r, w).

(** ** What the storage computes for a statement *)

(** [Result.scalar_one()]: exactly one row, or an exception. *)
Definition scalar_one {A : Type} (rows : list A) : result A :=
  match rows with
  | [] => Raise NoResultFound
  | [r] => Ok r
  | _ :: _ :: _ => Raise MultipleResultsFound
  end.

(** [Result.scalar_one_or_none()]: [None] when there is no row. *)
Definition scalar_one_or_none {A : Type} (rows : list A) : result (option A) :=
  match rows with
  | [] => Ok None
  | [r] => Ok (Some r)
  | _ :: _ :: _ => Raise MultipleResultsFound
  end.


Definition is_percent (c : ascii) : bool := Ascii.eqb c "%".
Definition is_underscore (c : ascii) : bool := Ascii.eqb c "_".

(** [f] holds of the text or of one of its endings. *)
Fixpoint any_suffix (f : string -> bool) (text : string) : bool :=
  f text
  || match text with
     | EmptyString => false
     | String _ rest => any_suffix f rest
     end.

(** [text LIKE pattern]: [%] stands for any run of characters, [_] for any
    one character, every other character for itself, compared as it is
    written.  No character escapes another. *)
Fixpoint like (pattern text : string) : bool :=
  match pattern with
  | EmptyString =>
      match text with
      | EmptyString => true
      | String _ _ => false
      end
  | String c rest =>
      if is_percent c then any_suffix (like rest) text
      else
        match text with
        | EmptyString => false
        | String d text' =>
            (is_underscore c || Ascii.eqb c d) && like rest text'
        end
  end.

(** [column.contains(x)] is rendered as [column LIKE '%' || x || '%'], with
    [x] as it was sent: a [%] or a [_] in [x] is a wildcard of the pattern.
    A column that holds no text matches no pattern. *)
Definition column_contains (v : pyval) (x : string) : bool :=
  match v with
  | PStr s => like ("%" ++ x ++ "%") s
  | _ => false
  end.

(** The order of the rows of a statement without ORDER BY: the rows by
    their rank, rows of one rank as the table has them. *)
Fixpoint insert_row {A : Type} (rank : A -> Z) (r : A) (rows : list A)
  : list A :=
  match rows with
  | [] => [r]
  | x :: rest =>
      if rank r <=? rank x then r :: rows else x :: insert_row rank r rest
  end.

Definition order_rows {A : Type} (rank : A -> Z) (rows : list A) : list A :=
  fold_right (insert_row rank) [] rows.

(** [extract('month', column)] and [extract('day', column)]; a column that
    holds no date has no month and no day, and no comparison on it holds. *)
Definition extract_month (v : pyval) : option Z :=
  match v with
  | PDate d => Some (month d)
  | _ => None
  end.

Definition extract_day (v : pyval) : option Z :=
  match v with
  | PDate d => Some (day d)
  | _ => None
  end.

Definition sql_ge (x : option Z) (y : Z) : bool :=
  match x with
  | Some v => y <=? v
  | None => false
  end.

Definition sql_le (x : option Z) (y : Z) : bool :=
  match x with
  | Some v => v <=? y
  | None => false
  end.

Definition and_ (conds : list bool) : bool := forallb (fun b => b) conds.

(** [Contact.user_id == user_id] and [Contact.id == contact_id]. *)
Definition user_id_eq (uid : Z) (c : Contact) : bool :=
  match user_id c with
  | Some o => o =? uid
  | None => false
  end.

Definition id_eq (cid : Z) (c : Contact) : bool := id c =? cid.

(** Truth value of an optional query parameter: [None] and the empty string
    are false. *)
Definition truthy (o : option string) : bool :=
  match o with
  | Some (String _ _) => true
  | _ => false
  end.

Definition param (o : option string) : string :=
  match o with
  | Some s => s
  | None => EmptyString
  end.

(** Column types of the contacts table. *)
Definition is_text (v : pyval) : bool :=
  match v with PStr _ => true | _ => false end.

Definition is_date (v : pyval) : bool :=
  match v with PDate _ => true | _ => false end.

Definition is_text_or_null (v : pyval) : bool :=
  match v with PStr _ | PNone => true | _ => false end.

Definition well_typed (c : Contact) : bool :=
  is_text (first_name c) && is_text (last_name c) && is_text (email c)
  && is_text (phone c) && is_date (birthday c)
  && is_text_or_null (additional_note c).

Definition has_owner (c : Contact) : bool :=
  match user_id c with Some _ => true | None => false end.

(** What a flush of the row [c] raises, if anything. *)
Definition flush_check (sc : Schema) (c : Contact) : option exn :=
  if owner_required sc && negb (has_owner c) then Some IntegrityError
  else if typed_columns sc && negb (well_typed c) then Some DBAPIError
  else None.

(** [db.add(contact); await db.commit(); await db.refresh(contact)]: the
    storage assigns the primary key.  A rejected flush leaves the tables as
    they were. *)
Definition db_add_contact (pending : Z -> Contact) : M Contact :=
  fun w =>
    let c := pending (next_contact_id w) in
    match flush_check (schema w) c with
    | Some e => (Raise e, w)
    | None =>
        (Ok c,
         mkWorld (schema w) (users w) (contacts w ++ [c]) (next_user_id w)
                 (next_contact_id w + 1) (today w) (background_tasks w))
    end.

(** UPDATE ... WHERE pk = pk(row): the loaded object [row] is written over
    the stored row that has its primary key. *)
Definition replace_row {A : Type} (pk : A -> Z) (row : A) (table : list A)
  : list A :=
  map (fun r => if pk r =? pk row then row else r) table.

(** [await db.commit()] after attribute assignments on the loaded row [c]. *)
Definition db_commit_contact (c : Contact) : M unit :=
  fun w =>
    match flush_check (schema w) c with
    | Some e => (Raise e, w)
    | None => (Ok tt, set_contacts w (replace_row id c (contacts w)))
    end.

(** [await db.delete(contact); await db.commit()]. *)
Definition db_delete_contact (c : Contact) : M unit :=
  fun w =>
    (Ok tt, set_contacts w (filter (fun r => negb (id r =? id c)) (contacts w))).

(** [await db.commit()] after attribute assignments on the loaded user [u]. *)
Definition db_commit_user (u : User) : M unit :=
  fun w => (Ok tt, set_users w (replace_row u_id u (users w))).

Definition email_registered (e : string) (us : list User) : bool :=
  existsb (fun u => String.eqb (u_email u) e) us.

(** Modelled from the spec: the declaration of the users table is not part of
    the sources; the storage "guarantees unique constraint on User.email", so
    the insertion of a second row with a registered email raises. *)
Definition db_add_user (pending : Z -> User) : M User :=
  fun w =>
    let u := pending (next_user_id w) in
    if email_registered (u_email u) (users w) then (Raise IntegrityError, w)
    else
      (Ok u,
       mkWorld (schema w) (users w ++ [u]) (contacts w) (next_user_id w + 1)
               (next_contact_id w) (today w) (background_tasks w)).

(** [BackgroundTasks.add_task(send_email, ...)]. *)
Definition add_task (t : Task) : M unit :=
  fun w =>
    (Ok tt,
     mkWorld (schema w) (users w) (contacts w) (next_user_id w)
             (next_contact_id w) (today w) (background_tasks w ++ [t])).

(** [await db.execute(stmt.offset(skip).limit(limit))] for the rows [rows]
    that the conditions of [stmt] select: the storage rejects a negative
    offset or limit, and returns the window of the rows in its own order. *)
Definition execute_window (skip limit : Z) (rows : list Contact)
  : M (list Contact) :=
  fun w =>
    if (skip <? 0) || (limit <? 0) then (Raise DBAPIError, w)
    else
      (Ok (firstn (Z.to_nat limit)
                  (skipn (Z.to_nat skip)
                         (order_rows (row_rank (schema w)) rows))), w).

(** The read of an attribute of a loaded object after [await db.commit()]:
    a session that expired the object has to load the row again, which an
    attribute read cannot await, and the read raises. *)
Definition attribute_after_commit {A : Type} (v : A) : M A :=
  fun w =>
    if expire_on_commit (schema w) then (Raise MissingGreenlet, w)
    else (Ok v, w).

(** [print(v)]: the standard output is not part of the storage. *)
Definition print {A : Type} (v : A) : M unit := ret tt.

(** ** src/repository/contacts.py *)

Module repository_contacts.

(** [select(Contact).where(Contact.user_id == user_id)], then one
    [.filter(column.contains(x))] for each query parameter that is true,
    then [.offset(skip).limit(limit)]; the statement has no ORDER BY. *)
Definition get_contacts (skip limit : Z) (uid : Z)
           (name surname mail : option string) : M (list Contact) :=
  w <- get_world ;;
  let stmt := filter (user_id_eq uid) (contacts w) in
  let stmt :=
    if truthy name
    then filter (fun c => column_contains (first_name c) (param name)) stmt
    else stmt in
  let stmt :=
    if truthy surname
    then filter (fun c => column_contains (last_name c) (param surname)) stmt
    else stmt in
  let stmt :=
    if truthy mail
    then filter (fun c => column_contains (email c) (param mail)) stmt
    else stmt in
  execute_window skip limit stmt.

(** The statement selects from the whole table: no owner is named. *)
Definition get_upcoming_birthdays : M (list Contact) :=
  w <- get_world ;;
  let today := today w in
  let in_one_week := add_days 7 today in
  ret (filter
         (fun c =>
            and_ [ sql_ge (extract_month (birthday c)) (month today);
                   sql_ge (extract_day (birthday c)) (day today);
                   sql_le (extract_month (birthday c)) (month in_one_week);
                   sql_le (extract_day (birthday c)) (day in_one_week) ])
         (contacts w)).

(** The value is a reference to a row: [scalar_one] never gives [None]. *)
Definition get_contact (contact_id uid : Z) : M (option Contact) :=
  w <- get_world ;;
  let stmt := filter (id_eq contact_id) (filter (user_id_eq uid) (contacts w)) in
  contact <- lift (scalar_one stmt) ;;
  ret (Some contact).

(** The constructor is given no [user_id]: the attribute stays [None]. *)
Definition create_contact (body : ContactModel) : M Contact :=
  let contact := fun pk =>
    mkContact pk None
              (PStr (cm_first_name body))
              (PStr (cm_last_name body))
              (PStr (cm_email body))
              (PStr (cm_phone body))
              (PDate (cm_birthday body))
              (match cm_additional_note body with
               | Some s => PStr s
               | None => PNone
               end) in
  db_add_contact contact.

(** The first five assignments end in a comma: each stores the one-element
    tuple of the value.  The last one stores the value. *)
Definition update_contact (contact_id uid : Z) (body : ContactModel)
  : M (option Contact) :=
  w <- get_world ;;
  let stmt := filter (id_eq contact_id) (filter (user_id_eq uid) (contacts w)) in
  contact <- lift (scalar_one_or_none stmt) ;;
  match contact with
  | Some c =>
      let c :=
        mkContact (id c) (user_id c)
                  (PTuple [PStr (cm_first_name body)])
                  (PTuple [PStr (cm_last_name body)])
                  (PTuple [PStr (cm_email body)])
                  (PTuple [PStr (cm_phone body)])
                  (PTuple [PDate (cm_birthday body)])
                  (match cm_additional_note body with
                   | Some s => PStr s
                   | None => PNone
                   end) in
      db_commit_contact c ;;;
      ret (Some c)
  | None => ret None
  end.

Definition remove_contact (note_id uid : Z) : M (option Contact) :=
  w <- get_world ;;
  let stmt := filter (id_eq note_id) (filter (user_id_eq uid) (contacts w)) in
  contact <- lift (scalar_one_or_none stmt) ;;
  match contact with
  | Some c =>
      db_delete_contact c ;;;
      ret (Some c)
  | None => ret None
  end.

End repository_contacts.

(** ** src/routes/contacts.py

    [user] is the caller that [auth_service.get_current_user] resolved from
    the bearer token. *)

Module routes_contacts.

Definition NOT_FOUND_MESSAGE : string := "Contact not found".

Definition read_contacts (skip limit : Z) (name surname mail : option string)
           (user : User) : M (list Contact) :=
  repository_contacts.get_contacts skip limit (u_id user) name surname mail.

(** [user] is resolved and not used. *)
Definition birthdays (user : User) : M (list Contact) :=
  repository_contacts.get_upcoming_birthdays.

Definition read_contact (contact_id : Z) (user : User) : M Contact :=
  contact <- repository_contacts.get_contact contact_id (u_id user) ;;
  match contact with
  | None => raise (HTTPException HTTP_404_NOT_FOUND NOT_FOUND_MESSAGE)
  | Some c => ret c
  end.

(** [user] is resolved and not used. *)
Definition create_contact (body : ContactModel) (user : User) : M Contact :=
  repository_contacts.create_contact body.

Definition update_contact (body : ContactModel) (contact_id : Z) (user : User)
  : M Contact :=
  contact <- repository_contacts.update_contact contact_id (u_id user) body ;;
  match contact with
  | None => raise (HTTPException HTTP_404_NOT_FOUND NOT_FOUND_MESSAGE)
  | Some c => ret c
  end.

Definition remove_contact (contact_id : Z) (user : User) : M Contact :=
  contact <- repository_contacts.remove_contact contact_id (u_id user) ;;
  match contact with
  | None => raise (HTTPException HTTP_404_NOT_FOUND NOT_FOUND_MESSAGE)
  | Some c => ret c
  end.

End routes_contacts.

(** ** Collaborators of the user handlers ([src.services.auth]) *)

Record AuthService : Type := mkAuthService {
  get_password_hash : string -> string;
  verify_password : string -> string -> bool;
  create_access_token : list (string * string) -> string;
  create_refresh_token : list (string * string) -> string;
  get_email_form_refresh_token : string -> result string;
  get_email_from_token : string -> result string
}.

(** Attribute access on a name bound to a row or to [None]. *)
Definition deref {A : Type} (o : option A) : M A :=
  match o with
  | Some a => ret a
  | None => raise AttributeError
  end.

(** Truth value of a name bound to a row or to [None]. *)
Definition is_set {A : Type} (o : option A) : bool :=
  match o with
  | Some _ => true
  | None => false
  end.

Definition with_refresh_token (u : User) (t : option string) : User :=
  mkUser (u_id u) (username u) (u_email u) (password u) (avatar u) t
         (is_confirmed u).

Definition with_is_confirmed (u : User) (b : bool) : User :=
  mkUser (u_id u) (username u) (u_email u) (password u) (avatar u)
         (refresh_token u) b.

Definition with_avatar (u : User) (a : option string) : User :=
  mkUser (u_id u) (username u) (u_email u) (password u) a
         (refresh_token u) (is_confirmed u).

(** [user.refresh_token != token]. *)
Definition token_differs (stored : option string) (token : string) : bool :=
  match stored with
  | Some t => negb (String.eqb t token)
  | None => true
  end.

(** ** src/repository/users.py *)

Module repository_users.

Section WithGravatar.

(** [Gravatar(email).get_image()]: an address, or an exception. *)
Variable Gravatar_get_image : string -> result string.

Definition get_user_by_email (mail : string) : M (option User) :=
  w <- get_world ;;
  let stmt := filter (fun u => String.eqb (u_email u) mail) (users w) in
  lift (scalar_one_or_none stmt).

(** [try: ... except Exception]: every exception of the lookup is caught
    and [avatar] keeps its initial [None]. *)
Definition create_user (body : UserSchema) : M User :=
  let avatar :=
    match Gravatar_get_image (us_email body) with
    | Ok url => Some url
    | Raise _ => None
    end in
  let new_user := fun pk =>
    mkUser pk (us_username body) (us_email body) (us_password body)
           avatar None false in
  db_add_user new_user.

Definition update_token (user : User) (token : option string) : M unit :=
  db_commit_user (with_refresh_token user token).

(** The last statement reads [user.is_confirmed] after the commit. *)
Definition confirmed_email (mail : string) : M unit :=
  user <- get_user_by_email mail ;;
  u <- deref user ;;
  let u := with_is_confirmed u true in
  db_commit_user u ;;;
  v <- attribute_after_commit (is_confirmed u) ;;
  print v.

Definition update_avatar (mail : string) (url : string) : M User :=
  user <- get_user_by_email mail ;;
  u <- deref user ;;
  db_commit_user (with_avatar u (Some url)) ;;;
  ret (with_avatar u (Some url)).

End WithGravatar.

End repository_users.

(** ** src/routes/auth.py *)

Module routes_auth.

Section WithServices.

Variable auth_service : AuthService.
Variable Gravatar_get_image : string -> result string.

Definition signup (body : UserSchema) (base_url : string) : M User :=
  exist_user <- repository_users.get_user_by_email (us_email body) ;;
  if is_set exist_user
  then raise (HTTPException HTTP_409_CONFLICT "Account already exists")
  else
    let body :=
      mkUserSchema (us_username body) (us_email body)
                   (get_password_hash auth_service (us_password body)) in
    new_user <- repository_users.create_user Gravatar_get_image body ;;
    add_task (mkTask (u_email new_user) (username new_user) base_url) ;;;
    ret new_user.

Definition login (body : OAuth2PasswordRequestForm) : M TokenSchema :=
  user <- repository_users.get_user_by_email (form_username body) ;;
  match user with
  | None => raise (HTTPException HTTP_401_UNAUTHORIZED "Invalid email")
  | Some user =>
      if negb (is_confirmed user)
      then raise (HTTPException HTTP_401_UNAUTHORIZED "Email not confirmed")
      else if negb (verify_password auth_service (form_password body)
                                    (password user))
      then raise (HTTPException HTTP_401_UNAUTHORIZED "Invalid password")
      else
        let access_token :=
          create_access_token auth_service
            [("sub", u_email user); ("test", "test")] in
        let refresh_token :=
          create_refresh_token auth_service [("sub", u_email user)] in
        repository_users.update_token user (Some refresh_token) ;;;
        ret (mkTokenSchema access_token refresh_token "bearer")
  end.

Definition refresh_token (credentials : string) : M TokenSchema :=
  let token := credentials in
  mail <- lift (get_email_form_refresh_token auth_service token) ;;
  user <- repository_users.get_user_by_email mail ;;
  user <- deref user ;;
  if token_differs (refresh_token user) token
  then
    repository_users.update_token user None ;;;
    raise (HTTPException HTTP_401_UNAUTHORIZED "Invalid refresh token")
  else
    let access_token :=
      create_access_token auth_service [("sub", mail)] in
    let refresh_token :=
      create_refresh_token auth_service [("sub", mail)] in
    repository_users.update_token user (Some refresh_token) ;;;
    ret (mkTokenSchema access_token refresh_token "bearer").

Definition confirmed_email (token : string) : M string :=
  mail <- lift (get_email_from_token auth_service token) ;;
  user <- repository_users.get_user_by_email mail ;;
  match user with
  | None => raise (HTTPException HTTP_400_BAD_REQUEST "Verification error")
  | Some user =>
      if is_confirmed user
      then ret "Your email is already confirmed"
      else
        repository_users.confirmed_email mail ;;;
        ret "Email confirmed"
  end.

(** [user.is_confirmed] is read first; [if user] comes after it. *)
Definition request_email (body_email : string) (base_url : string)
  : M string :=
  user <- repository_users.get_user_by_email body_email ;;
  confirmed <- (u <- deref user ;; ret (is_confirmed u)) ;;
  if confirmed
  then ret "Your email is already confirmed"
  else
    (if is_set user
     then
       u <- deref user ;;
       add_task (mkTask (u_email u) (username u) base_url)
     else ret tt) ;;;
    ret "Check your email for confirmation.".

End WithServices.

End routes_auth.

(** ** Properties of the storage that the statements rely on *)

(** Primary keys and registered emails are unique. *)
Definition wf_users (us : list User) : Prop :=
  NoDup (map u_id us) /\ NoDup (map u_email us).

Definition wf_contacts (cs : list Contact) : Prop := NoDup (map id cs).


(** [u'] is [u] but for the refresh token, for the confirmation, for the
    avatar. *)
Definition same_but_token (u u' : User) : Prop :=
  u_id u' = u_id u /\ username u' = username u /\ u_email u' = u_email u
  /\ password u' = password u /\ avatar u' = avatar u
  /\ is_confirmed u' = is_confirmed u.

Definition same_but_confirmed (u u' : User) : Prop :=
  u_id u' = u_id u /\ username u' = username u /\ u_email u' = u_email u
  /\ password u' = password u /\ avatar u' = avatar u
  /\ refresh_token u' = refresh_token u.

Definition same_but_avatar (u u' : User) : Prop :=
  u_id u' = u_id u /\ username u' = username u /\ u_email u' = u_email u
  /\ password u' = password u /\ refresh_token u' = refresh_token u
  /\ is_confirmed u' = is_confirmed u.


(** ** The listing as the specification words it

    One predicate per contact: the owner is the caller, and every supplied
    filter is contained in its field; then the window. *)






(** ** The handler of [request_email] with the test [if user] taken out *)

Definition request_email_unguarded (body_email base_url : string) : M string :=
  user <- repository_users.get_user_by_email body_email ;;
  confirmed <- (u <- deref user ;; ret (is_confirmed u)) ;;
  if confirmed
  then ret "Your email is already confirmed"
  else
    (u <- deref user ;;
     add_task (mkTask (u_email u) (username u) base_url)) ;;;
    ret "Check your email for confirmation.".

(** ** Sample data *)

Module Sample.

Definition permissive : Schema := mkSchema false false false (fun _ => 0).
Definition strict : Schema := mkSchema true true true id.

Definition ann : User :=
  mkUser 1 "ann" "ann@example.com" "h:secret" None (Some "rt-1") true.
Definition bob : User :=
  mkUser 2 "bob" "bob@example.com" "h:hunter2" None None false.

Definition john : Contact :=
  mkContact 1 (Some 1) (PStr "John") (PStr "Doe") (PStr "john@example.com")
            (PStr "555-0101") (PDate (mkDate 1990 6 30)) PNone.
Definition joanna : Contact :=
  mkContact 2 (Some 1) (PStr "Joanna") (PStr "Roe") (PStr "joanna@example.com")
            (PStr "555-0102") (PDate (mkDate 1988 7 10)) (PStr "met in Kyiv").
Definition mark : Contact :=
  mkContact 3 (Some 1) (PStr "Mark") (PStr "Poe") (PStr "mark@example.com")
            (PStr "555-0103") (PDate (mkDate 1991 6 12)) PNone.

Definition world (sc : Schema) (d : date) : World :=
  mkWorld sc [ann; bob] [john; joanna; mark] 3 4 d [].

Definition empty_world : World :=
  mkWorld permissive [] [] 1 1 (mkDate 2024 6 25) [].

Definition body : ContactModel :=
  mkContactModel "Jon" "Dow" "jon@example.com" "555-0199"
                 (mkDate 1990 7 1) (Some "renamed").

Definition svc : AuthService :=
  mkAuthService
    (fun p => ("h:" ++ p)%string)
    (fun p h => String.eqb ("h:" ++ p)%string h)
    (fun data => "access")
    (fun data => "rt-2")
    (fun token => Ok "ann@example.com")
    (fun token => Ok "bob@example.com").

Definition gravatar_down : string -> result string :=
  fun _ => Raise (HTTPException 503 "gravatar unreachable").

Definition carol : UserSchema :=
  mkUserSchema "carol" "carol@example.com" "h:pw".

End Sample.

(** ** The keys the storage hands out

    A new row gets the next key of its table; the keys in use are below it. *)

Definition keys_below {A : Type} (pk : A -> Z) (next : Z) (table : list A)
  : Prop :=
  Forall (fun k => k < next) (map pk table).

Definition wf_directory (w : World) : Prop :=
  wf_users (users w) /\ keys_below u_id (next_user_id w) (users w).

Definition wf_contact_table (w : World) : Prop :=
  wf_contacts (contacts w) /\ keys_below id (next_contact_id w) (contacts w).

(** * Properties *)

(** [NoDup] of a list of distinct literals. *)
Ltac solve_NoDup :=
  repeat (constructor; [simpl; intuition discriminate|]); constructor.

(** ** Lists of rows *)

Section Rows.

Context {A : Type}.

Lemma filter_none (p : A -> bool) (l : list A) :
  (forall a, In a l -> p a = false) -> filter p l = [].
Proof.
  induction l as [|x l IH]; intros H; simpl; [reflexivity|].
  rewrite (H x (or_introl eq_refl)).
  apply IH. intros a Ha. apply H. now right.
Qed.

Lemma filter_twice (p q : A -> bool) (l : list A) :
  filter q (filter p l) = filter (fun a => p a && q a) l.
Proof.
  induction l as [|x l IH]; simpl; [reflexivity|].
  destruct (p x); simpl; [destruct (q x)|]; now rewrite IH.
Qed.

(** A window of a list holds rows of the list. *)
Lemma window_In (skip limit : nat) (l : list A) (a : A) :
  In a (firstn limit (skipn skip l)) -> In a l.
Proof.
  intros H.
  assert (H' : In a (skipn skip l)).
  { rewrite <- (firstn_skipn limit (skipn skip l)).
    apply in_or_app. now left. }
  rewrite <- (firstn_skipn skip l). apply in_or_app. now right.
Qed.

Context {K : Type}.
Variable key : A -> K.

(** A key that is unique in the table names one row. *)
Lemma key_names_one_row (l : list A) (a b : A) :
  NoDup (map key l) -> In a l -> In b l -> key a = key b -> a = b.
Proof.
  induction l as [|x l IH]; simpl; intros ND Ha Hb E; [contradiction|].
  inversion ND as [|k ks Hx ND']; subst.
  destruct Ha as [-> | Ha]; destruct Hb as [-> | Hb]; auto.
  - exfalso. apply Hx. rewrite E. now apply in_map.
  - exfalso. apply Hx. rewrite <- E. now apply in_map.
Qed.

(** A selection that only rows with the key of [a] can pass, and that [a]
    passes, returns [a] alone. *)
Lemma filter_unique (p : A -> bool) (l : list A) (a : A) :
  NoDup (map key l) -> In a l -> p a = true ->
  (forall b, In b l -> p b = true -> key b = key a) ->
  filter p l = [a].
Proof.
  induction l as [|x l IH]; simpl; intros ND Ha Pa Hk; [contradiction|].
  inversion ND as [|k ks Hx ND']; subst.
  destruct Ha as [-> | Ha].
  - rewrite Pa. f_equal. apply filter_none. intros b Hb.
    destruct (p b) eqn:Pb; [|reflexivity].
    exfalso. apply Hx. rewrite <- (Hk b (or_intror Hb) Pb). now apply in_map.
  - destruct (p x) eqn:Px.
    + exfalso. apply Hx. rewrite (Hk x (or_introl eq_refl) Px).
      now apply in_map.
    + apply IH; auto.
Qed.

End Rows.

Section ReplaceRow.

Context {A : Type}.
Variable pk : A -> Z.

Lemma replace_row_In (row a : A) (l : list A) :
  In a l -> pk a = pk row -> In row (replace_row pk row l).
Proof.
  intros Ha E. unfold replace_row.
  apply in_map_iff. exists a. split; [|assumption].
  rewrite E, Z.eqb_refl. reflexivity.
Qed.

(** A column that the assignments leave alone reads the same after the
    update, in every row. *)
Lemma replace_row_column {B : Type} (g : A -> B) (row a : A) (l : list A) :
  NoDup (map pk l) -> In a l -> pk row = pk a -> g row = g a ->
  map g (replace_row pk row l) = map g l.
Proof.
  intros ND Ha E G. unfold replace_row. rewrite map_map.
  apply map_ext_in. intros r Hr.
  destruct (pk r =? pk row) eqn:Er; [|reflexivity].
  apply Z.eqb_eq in Er.
  assert (r = a) as ->.
  { apply (key_names_one_row pk l); auto. congruence. }
  assumption.
Qed.

(** Writing a row over itself changes nothing. *)
Lemma replace_row_self (a : A) (l : list A) :
  NoDup (map pk l) -> In a l -> replace_row pk a l = l.
Proof.
  intros ND Ha. unfold replace_row.
  rewrite <- (map_id l) at 2.
  apply map_ext_in. intros r Hr.
  destruct (pk r =? pk a) eqn:Er; [|reflexivity].
  apply Z.eqb_eq in Er. symmetry.
  now apply (key_names_one_row pk l).
Qed.

End ReplaceRow.

(** ** Text containment *)





(** ** Patterns and containment *)






(** ** The order of the rows *)

Lemma insert_row_Permutation {A : Type} (rank : A -> Z) (r : A)
      (rows : list A) :
  Permutation (insert_row rank r rows) (r :: rows).
Proof.
  induction rows as [|x rows IH]; simpl; [reflexivity|].
  destruct (rank r <=? rank x); [reflexivity|].
  rewrite IH. apply perm_swap.
Qed.

Lemma order_rows_Permutation {A : Type} (rank : A -> Z) (rows : list A) :
  Permutation (order_rows rank rows) rows.
Proof.
  induction rows as [|x rows IH]; simpl; [reflexivity|].
  rewrite insert_row_Permutation. now constructor.
Qed.

Lemma order_rows_In {A : Type} (rank : A -> Z) (rows : list A) (a : A) :
  In a (order_rows rank rows) <-> In a rows.
Proof.
  split; apply Permutation_in;
    [| symmetry]; apply order_rows_Permutation.
Qed.

(** ** Listing contacts *)








(** The rows of a listing are stored contacts of the caller, and the listing
    leaves the storage as it was. *)
Lemma get_contacts_rows :
  forall (w w' : World) (skip limit : Z) (owner : Z)
         (name surname mail : option string) (l : list Contact),
    repository_contacts.get_contacts skip limit owner name surname mail w
    = (Ok l, w') ->
    w' = w
    /\ forall c, In c l -> In c (contacts w) /\ user_id c = Some owner.
Proof.
  intros w w' skip limit owner name surname mail l H.
  unfold repository_contacts.get_contacts, bind, get_world, execute_window in H.
  destruct ((skip <? 0) || (limit <? 0)); [discriminate|].
  injection H as <- <-. split; [reflexivity|].
  intros c Hc. apply window_In, order_rows_In in Hc.
  assert (Ho : In c (filter (user_id_eq owner) (contacts w))).
  { destruct (truthy mail); [apply filter_In in Hc; destruct Hc as [Hc _]|];
      (destruct (truthy surname);
       [apply filter_In in Hc; destruct Hc as [Hc _]|]);
      (destruct (truthy name);
       [apply filter_In in Hc; destruct Hc as [Hc _]|]); exact Hc. }
  apply filter_In in Ho. destruct Ho as [Hin Ho]. split; [exact Hin|].
  unfold user_id_eq in Ho. destruct (user_id c) as [o|]; [|discriminate].
  apply Z.eqb_eq in Ho. now subst.
Qed.

(** What the listing returns belongs to the caller. *)
Lemma get_contacts_owner_scoped :
  forall (w w' : World) (skip limit : Z) (owner : Z)
         (name surname mail : option string) (l : list Contact) (c : Contact),
    repository_contacts.get_contacts skip limit owner name surname mail w
    = (Ok l, w') ->
    In c l -> user_id c = Some owner.
Proof.
  intros w w' skip limit owner name surname mail l c H Hc.
  exact (proj2 (proj2 (get_contacts_rows w w' skip limit owner
                                         name surname mail l H) c Hc)).
Qed.

(** ** The user directory *)

Lemma get_user_by_email_registered (w : World) (u : User) :
  wf_users (users w) -> In u (users w) ->
  repository_users.get_user_by_email (u_email u) w = (Ok (Some u), w).
Proof.
  intros [_ ND] Hu.
  unfold repository_users.get_user_by_email, bind, get_world, lift.
  rewrite (filter_unique u_email _ (users w) u ND Hu).
  - reflexivity.
  - apply String.eqb_refl.
  - intros b _ Hb. now apply String.eqb_eq in Hb.
Qed.

Lemma get_user_by_email_unregistered (w : World) (mail : string) :
  email_registered mail (users w) = false ->
  repository_users.get_user_by_email mail w = (Ok None, w).
Proof.
  intros H.
  unfold repository_users.get_user_by_email, bind, get_world, lift.
  rewrite filter_none; [reflexivity|].
  intros a Ha. destruct (String.eqb (u_email a) mail) eqn:E; [|reflexivity].
  unfold email_registered in H.
  assert (existsb (fun u => String.eqb (u_email u) mail) (users w) = true)
    by (apply existsb_exists; eauto).
  congruence.
Qed.

(** An update that keeps the primary key and the email of a stored user
    keeps the directory well formed, and stores the updated user. *)
Lemma db_commit_user_stores (w : World) (u u' : User) :
  wf_users (users w) -> In u (users w) ->
  u_id u' = u_id u -> u_email u' = u_email u ->
  exists w',
    db_commit_user u' w = (Ok tt, w')
    /\ wf_users (users w')
    /\ In u' (users w')
    /\ contacts w' = contacts w.
Proof.
  intros [NDi NDe] Hu Ei Ee.
  eexists. split; [reflexivity|]. simpl.
  repeat split.
  - now rewrite (replace_row_column u_id u_id u' u (users w) NDi Hu Ei Ei).
  - now rewrite (replace_row_column u_id u_email u' u (users w) NDi Hu Ei Ee).
  - apply (replace_row_In u_id u' u); auto.
Qed.

(** C6. For a registered user: a successful login stores the refresh token
    it issues; a refresh that presents the stored token stores the new token
    it issues; a refresh that presents another token of that user stores
    [None] and answers 401.  In each case the user that the directory then
    holds has that refresh token and is otherwise as before. *)
Theorem refresh_token_is_rotated :
  forall (svc : AuthService) (w : World) (u : User),
    wf_users (users w) -> In u (users w) ->
    (forall body : OAuth2PasswordRequestForm,
        form_username body = u_email u ->
        is_confirmed u = true ->
        verify_password svc (form_password body) (password u) = true ->
        exists t w' u',
          routes_auth.login svc body w = (Ok t, w')
          /\ ts_refresh_token t = create_refresh_token svc [("sub", u_email u)]
          /\ repository_users.get_user_by_email (u_email u) w'
             = (Ok (Some u'), w')
          /\ refresh_token u' = Some (ts_refresh_token t)
          /\ same_but_token u u')
    /\ (forall token : string,
           get_email_form_refresh_token svc token = Ok (u_email u) ->
           refresh_token u = Some token ->
           exists t w' u',
             routes_auth.refresh_token svc token w = (Ok t, w')
             /\ ts_refresh_token t
                = create_refresh_token svc [("sub", u_email u)]
             /\ repository_users.get_user_by_email (u_email u) w'
                = (Ok (Some u'), w')
             /\ refresh_token u' = Some (ts_refresh_token t)
             /\ same_but_token u u')
    /\ (forall token : string,
           get_email_form_refresh_token svc token = Ok (u_email u) ->
           refresh_token u <> Some token ->
           exists w' u',
             routes_auth.refresh_token svc token w
             = (Raise (HTTPException HTTP_401_UNAUTHORIZED
                                     "Invalid refresh token"), w')
             /\ repository_users.get_user_by_email (u_email u) w'
                = (Ok (Some u'), w')
             /\ refresh_token u' = None
             /\ same_but_token u u').
Proof.
  intros svc w u Hwf Hu.
  assert (Hstore : forall t,
             exists w',
               db_commit_user (with_refresh_token u t) w = (Ok tt, w')
               /\ repository_users.get_user_by_email (u_email u) w'
                  = (Ok (Some (with_refresh_token u t)), w')).
  { intros t.
    destruct (db_commit_user_stores w u (with_refresh_token u t) Hwf Hu
                                    eq_refl eq_refl)
      as (w' & Hc & Hwf' & Hin' & _).
    exists w'. split; [exact Hc|].
    exact (get_user_by_email_registered w' (with_refresh_token u t) Hwf' Hin'). }
  assert (Hsame : forall t, same_but_token u (with_refresh_token u t))
    by (intros t; repeat split).
  pose proof (get_user_by_email_registered w u Hwf Hu) as Hget.
  split; [|split].
  - intros body Hname Hconf Hpw.
    destruct (Hstore (Some (create_refresh_token svc [("sub", u_email u)])))
      as (w' & Hc & Hl).
    eexists. exists w'. eexists.
    unfold routes_auth.login, bind.
    rewrite Hname, Hget, Hconf, Hpw. cbv beta iota delta [negb].
    unfold repository_users.update_token. rewrite Hc.
    split; [reflexivity|]. split; [reflexivity|].
    split; [exact Hl|]. split; [reflexivity | apply Hsame].
  - intros token Hdec Hstored.
    destruct (Hstore (Some (create_refresh_token svc [("sub", u_email u)])))
      as (w' & Hc & Hl).
    eexists. exists w'. eexists.
    unfold routes_auth.refresh_token, bind, lift.
    rewrite Hdec, Hget. cbv beta iota delta [deref ret].
    rewrite Hstored. unfold token_differs. rewrite String.eqb_refl.
    cbv beta iota delta [negb].
    unfold repository_users.update_token. rewrite Hc.
    split; [reflexivity|]. split; [reflexivity|].
    split; [exact Hl|]. split; [reflexivity | apply Hsame].
  - intros token Hdec Hstored.
    destruct (Hstore None) as (w' & Hc & Hl).
    exists w'. eexists.
    unfold routes_auth.refresh_token, bind, lift.
    rewrite Hdec, Hget. cbv beta iota delta [deref ret].
    assert (Hd : token_differs (refresh_token u) token = true).
    { unfold token_differs. destruct (refresh_token u) as [t|]; [|reflexivity].
      destruct (String.eqb t token) eqn:E; [|reflexivity].
      apply String.eqb_eq in E. congruence. }
    rewrite Hd. unfold repository_users.update_token. rewrite Hc.
    split; [reflexivity|]. split; [exact Hl|].
    split; [reflexivity | apply Hsame].
Qed.

Lemma refresh_token_is_rotated_witness :
  let w := Sample.world Sample.permissive (mkDate 2024 6 25) in
  (exists t w' u',
      routes_auth.login Sample.svc (mkLoginForm "ann@example.com" "secret") w
      = (Ok t, w')
      /\ ts_refresh_token t = "rt-2"
      /\ repository_users.get_user_by_email "ann@example.com" w'
         = (Ok (Some u'), w')
      /\ refresh_token u' = Some (ts_refresh_token t)
      /\ same_but_token Sample.ann u')
  /\ (exists t w' u',
         routes_auth.refresh_token Sample.svc "rt-1" w = (Ok t, w')
         /\ ts_refresh_token t = "rt-2"
         /\ repository_users.get_user_by_email "ann@example.com" w'
            = (Ok (Some u'), w')
         /\ refresh_token u' = Some (ts_refresh_token t)
         /\ same_but_token Sample.ann u')
  /\ (exists w' u',
         routes_auth.refresh_token Sample.svc "rt-0" w
         = (Raise (HTTPException HTTP_401_UNAUTHORIZED "Invalid refresh token"),
            w')
         /\ repository_users.get_user_by_email "ann@example.com" w'
            = (Ok (Some u'), w')
         /\ refresh_token u' = None
         /\ same_but_token Sample.ann u').
Proof.
  intros w.
  assert (Hwf : wf_users (users w)) by (split; solve_NoDup).
  assert (Hin : In Sample.ann (users w)) by (left; reflexivity).
  destruct (refresh_token_is_rotated Sample.svc w Sample.ann Hwf Hin)
    as (Hlogin & Hrefresh & Hforced).
  split; [|split].
  - exact (Hlogin (mkLoginForm "ann@example.com" "secret")
                  eq_refl eq_refl eq_refl).
  - exact (Hrefresh "rt-1" eq_refl eq_refl).
  - apply (Hforced "rt-0"); [reflexivity | discriminate].
Defined.

(** What the repository function does for a registered user: it commits the
    confirmation, and then reads the attribute for the print. *)
Lemma confirmed_email_run (w : World) (u : User) :
  wf_users (users w) -> In u (users w) ->
  let u1 := with_is_confirmed u true in
  let w1 := set_users w (replace_row u_id u1 (users w)) in
  repository_users.confirmed_email (u_email u) w
  = ((if expire_on_commit (schema w) then Raise MissingGreenlet else Ok tt),
     w1)
  /\ wf_users (users w1)
  /\ In u1 (users w1)
  /\ repository_users.get_user_by_email (u_email u) w1 = (Ok (Some u1), w1).
Proof.
  intros Hwf Hu u1 w1.
  destruct (db_commit_user_stores w u u1 Hwf Hu eq_refl eq_refl)
    as (w' & Hc & Hwf' & Hin' & _).
  unfold db_commit_user in Hc. injection Hc as <-. fold w1 in Hwf', Hin'.
  split; [|split; [exact Hwf' | split; [exact Hin'|]]].
  - unfold repository_users.confirmed_email, bind.
    rewrite (get_user_by_email_registered w u Hwf Hu).
    cbv beta iota zeta delta [deref ret]. fold u1.
    unfold db_commit_user, attribute_after_commit, print, ret. fold w1.
    change (schema w1) with (schema w).
    destruct (expire_on_commit (schema w)); reflexivity.
  - exact (get_user_by_email_registered w1 u1 Hwf' Hin').
Qed.

(** C7. For a registered user, the first confirmation commits
    [is_confirmed = true] and a second one leaves the storage as the first
    left it; but the repository function reads [user.is_confirmed] after its
    commit, so on a session that expires its objects at a commit both calls
    raise [MissingGreenlet], and the first call of the route does as well.
    On a session that keeps the attributes neither call raises.  The second
    call of the route answers that the email is already confirmed, on either
    session. *)
Theorem confirmed_email_twice :
  forall (svc : AuthService) (w : World) (u : User),
    wf_users (users w) -> In u (users w) ->
    exists (w1 : World) (u1 : User),
      repository_users.confirmed_email (u_email u) w
      = ((if expire_on_commit (schema w) then Raise MissingGreenlet
          else Ok tt), w1)
      /\ repository_users.confirmed_email (u_email u) w1
         = ((if expire_on_commit (schema w) then Raise MissingGreenlet
             else Ok tt), w1)
      /\ repository_users.get_user_by_email (u_email u) w1
         = (Ok (Some u1), w1)
      /\ is_confirmed u1 = true
      /\ same_but_confirmed u u1
      /\ forall token : string,
          get_email_from_token svc token = Ok (u_email u) ->
          routes_auth.confirmed_email svc token w
          = ((if is_confirmed u then Ok "Your email is already confirmed"
              else if expire_on_commit (schema w) then Raise MissingGreenlet
                   else Ok "Email confirmed"), w1)
          /\ routes_auth.confirmed_email svc token w1
             = (Ok "Your email is already confirmed", w1).
Proof.
  intros svc w u Hwf Hu.
  pose proof (get_user_by_email_registered w u Hwf Hu) as Hget.
  destruct (confirmed_email_run w u Hwf Hu) as (Hfirst & Hwf1 & Hin1 & Hget1).
  set (u1 := with_is_confirmed u true) in *.
  set (w1 := set_users w (replace_row u_id u1 (users w))) in *.
  destruct (confirmed_email_run w1 u1 Hwf1 Hin1) as (Hsecond & _).
  change (with_is_confirmed u1 true) with u1 in Hsecond.
  rewrite (replace_row_self u_id u1 (users w1) (proj1 Hwf1) Hin1) in Hsecond.
  assert (Hw1 : set_users w1 (users w1) = w1) by (destruct w1; reflexivity).
  rewrite Hw1 in Hsecond.
  change (u_email u1) with (u_email u) in Hsecond.
  change (schema w1) with (schema w) in Hsecond.
  exists w1, u1.
  split; [exact Hfirst|]. split; [exact Hsecond|]. split; [exact Hget1|].
  split; [reflexivity|]. split; [repeat split|].
  intros token Hdec. split.
  - unfold routes_auth.confirmed_email, bind, lift.
    rewrite Hdec, Hget.
    destruct (is_confirmed u) eqn:Hconf.
    + assert (Hu1 : u1 = u)
        by (unfold u1; destruct u; simpl in Hconf; subst; reflexivity).
      assert (Hww : w1 = w).
      { unfold w1. rewrite Hu1, (replace_row_self u_id u (users w)
                                                  (proj1 Hwf) Hu).
        destruct w; reflexivity. }
      rewrite Hww. reflexivity.
    + fold (bind (repository_users.confirmed_email (u_email u))
                 (fun _ => ret "Email confirmed") w).
      unfold bind. rewrite Hfirst.
      destruct (expire_on_commit (schema w)); reflexivity.
  - unfold routes_auth.confirmed_email, bind, lift.
    rewrite Hdec, Hget1. reflexivity.
Qed.

(** On a session that expires at a commit, both calls of the repository
    function for Bob raise; on the mocked session neither does. *)
Lemma confirmed_email_twice_witness :
  let w := Sample.world Sample.strict (mkDate 2024 6 25) in
  let w' := Sample.world Sample.permissive (mkDate 2024 6 25) in
  (exists w1 u1,
      repository_users.confirmed_email "bob@example.com" w
      = (Raise MissingGreenlet, w1)
      /\ repository_users.confirmed_email "bob@example.com" w1
         = (Raise MissingGreenlet, w1)
      /\ repository_users.get_user_by_email "bob@example.com" w1
         = (Ok (Some u1), w1)
      /\ is_confirmed u1 = true
      /\ routes_auth.confirmed_email Sample.svc "confirm-bob" w
         = (Raise MissingGreenlet, w1)
      /\ routes_auth.confirmed_email Sample.svc "confirm-bob" w1
         = (Ok "Your email is already confirmed", w1))
  /\ (exists w1,
         repository_users.confirmed_email "bob@example.com" w' = (Ok tt, w1)
         /\ repository_users.confirmed_email "bob@example.com" w1
            = (Ok tt, w1)).
Proof.
  intros w w'.
  assert (Hwf : forall sc, wf_users (users (Sample.world sc (mkDate 2024 6 25))))
    by (intros sc; split; solve_NoDup).
  assert (Hin : forall sc,
             In Sample.bob (users (Sample.world sc (mkDate 2024 6 25))))
    by (intros sc; right; left; reflexivity).
  split.
  - destruct (confirmed_email_twice Sample.svc w Sample.bob (Hwf _) (Hin _))
      as (w1 & u1 & H1 & H2 & H3 & H4 & _ & H6).
    destruct (H6 "confirm-bob" eq_refl) as (H7 & H8).
    exists w1, u1. repeat split; assumption.
  - destruct (confirmed_email_twice Sample.svc w' Sample.bob (Hwf _) (Hin _))
      as (w1 & u1 & H1 & H2 & _).
    exists w1. split; assumption.
Defined.

(** ** Signing up *)

(** C9. When the avatar lookup raises, [create_user] does what the insertion
    of the user with a null avatar does; for an email that is not registered
    yet the user is created, with a null avatar, and the signup route answers
    with that user. *)
Theorem avatar_failure_gives_null_avatar :
  forall (svc : AuthService) (gravatar : string -> result string)
         (body : UserSchema) (w : World) (e : exn),
    gravatar (us_email body) = Raise e ->
    repository_users.create_user gravatar body w
    = db_add_user
        (fun pk => mkUser pk (us_username body) (us_email body)
                          (us_password body) None None false) w
    /\ (email_registered (us_email body) (users w) = false ->
        (exists u w',
            repository_users.create_user gravatar body w = (Ok u, w')
            /\ avatar u = None
            /\ u_email u = us_email body
            /\ username u = us_username body
            /\ In u (users w'))
        /\ (forall base_url : string,
               exists u w',
                 routes_auth.signup svc gravatar body base_url w = (Ok u, w')
                 /\ avatar u = None
                 /\ u_email u = us_email body
                 /\ In u (users w'))).
Proof.
  intros svc gravatar body w e Hfail.
  assert (Hcreate : forall b : UserSchema,
             us_email b = us_email body ->
             repository_users.create_user gravatar b w
             = db_add_user
                 (fun pk => mkUser pk (us_username b) (us_email b)
                                   (us_password b) None None false) w).
  { intros b Hb. unfold repository_users.create_user.
    rewrite Hb, Hfail. reflexivity. }
  split; [now apply Hcreate|].
  intros Hfresh. split.
  - rewrite (Hcreate body eq_refl). unfold db_add_user.
    cbn [u_email]. rewrite Hfresh.
    do 2 eexists. split; [reflexivity|].
    repeat split. simpl. apply in_or_app. right. now left.
  - intros base_url.
    unfold routes_auth.signup, bind.
    rewrite (get_user_by_email_unregistered w (us_email body) Hfresh).
    cbv beta iota delta [is_set].
    rewrite (Hcreate (mkUserSchema (us_username body) (us_email body)
                                   (get_password_hash svc (us_password body)))
                     eq_refl).
    unfold db_add_user.
    cbn [u_email us_email]. rewrite Hfresh.
    do 2 eexists. split; [reflexivity|].
    repeat split. simpl. apply in_or_app. right. now left.
Qed.

Lemma avatar_failure_gives_null_avatar_witness :
  let w := Sample.world Sample.permissive (mkDate 2024 6 25) in
  (exists u w',
      repository_users.create_user Sample.gravatar_down Sample.carol w
      = (Ok u, w')
      /\ avatar u = None
      /\ u_email u = "carol@example.com"
      /\ username u = "carol"
      /\ In u (users w'))
  /\ (exists u w',
         routes_auth.signup Sample.svc Sample.gravatar_down Sample.carol
                            "http://testserver/" w = (Ok u, w')
         /\ avatar u = None
         /\ u_email u = "carol@example.com"
         /\ In u (users w')).
Proof.
  intros w.
  destruct (avatar_failure_gives_null_avatar
              Sample.svc Sample.gravatar_down Sample.carol w _ eq_refl)
    as (_ & H).
  destruct (H eq_refl) as (Hrepo & Hroute).
  split; [exact Hrepo | exact (Hroute "http://testserver/")].
Defined.

(** ** Asking for the confirmation mail again *)

(** C10. For an email that is not registered, [request_email] raises
    [AttributeError] at the read of [is_confirmed], it enqueues nothing and
    answers nothing; and on every input the handler behaves as the handler
    without the test [if user]: the test never decides anything. *)
Theorem request_email_reads_before_guard :
  forall (body_email base_url : string) (w : World),
    (email_registered body_email (users w) = false ->
     routes_auth.request_email body_email base_url w = (Raise AttributeError, w))
    /\ routes_auth.request_email body_email base_url w
       = request_email_unguarded body_email base_url w.
Proof.
  intros body_email base_url w. split.
  - intros Hfresh.
    unfold routes_auth.request_email, bind.
    rewrite (get_user_by_email_unregistered w body_email Hfresh).
    reflexivity.
  - unfold routes_auth.request_email, request_email_unguarded, bind.
    destruct (repository_users.get_user_by_email body_email w)
      as [[[u|]|ex] w']; reflexivity.
Qed.

Lemma request_email_reads_before_guard_witness :
  email_registered "nobody@example.com" (users Sample.empty_world) = false
  /\ routes_auth.request_email "nobody@example.com" "http://testserver/"
                               Sample.empty_world
     = (Raise AttributeError, Sample.empty_world).
Proof.
  split; [reflexivity|].
  apply (proj1 (request_email_reads_before_guard
                  "nobody@example.com" "http://testserver/"
                  Sample.empty_world)).
  reflexivity.
Defined.

(** ** Contacts of one owner *)

Lemma user_id_eq_iff (uid : Z) (c : Contact) :
  user_id_eq uid c = true <-> user_id c = Some uid.
Proof.
  unfold user_id_eq. destruct (user_id c) as [o|].
  - rewrite Z.eqb_eq. split; congruence.
  - split; discriminate.
Qed.

(** The selection by key and owner, on a table with unique keys. *)
Lemma select_by_id_and_owner (cs : list Contact) (c : Contact) (uid : Z) :
  wf_contacts cs -> In c cs -> user_id c = Some uid ->
  filter (id_eq (id c)) (filter (user_id_eq uid) cs) = [c].
Proof.
  intros ND Hc Ho. rewrite filter_twice.
  apply (filter_unique id _ cs c ND Hc).
  - apply andb_true_iff. split.
    + now apply user_id_eq_iff.
    + apply Z.eqb_refl.
  - intros b _ Hb. apply andb_true_iff in Hb. destruct Hb as [_ Hb].
    now apply Z.eqb_eq in Hb.
Qed.

Lemma select_by_id_and_owner_none (cs : list Contact) (cid uid : Z) :
  (forall c, In c cs -> id c = cid -> user_id c <> Some uid) ->
  filter (id_eq cid) (filter (user_id_eq uid) cs) = [].
Proof.
  intros H. rewrite filter_twice. apply filter_none. intros c Hc.
  destruct (user_id_eq uid c) eqn:Eo; [|reflexivity].
  destruct (id_eq cid c) eqn:Ei; [|reflexivity].
  exfalso. apply (H c Hc).
  - now apply Z.eqb_eq in Ei.
  - now apply user_id_eq_iff.
Qed.

(** What [get_contact] returns belongs to the caller and has the key asked
    for. *)
Lemma get_contact_owner_scoped :
  forall (w w' : World) (cid uid : Z) (c : Contact),
    repository_contacts.get_contact cid uid w = (Ok (Some c), w') ->
    In c (contacts w) /\ id c = cid /\ user_id c = Some uid.
Proof.
  intros w w' cid uid c H.
  unfold repository_contacts.get_contact, bind, get_world, lift, ret in H.
  destruct (filter (id_eq cid) (filter (user_id_eq uid) (contacts w)))
    as [|x [|y l]] eqn:E; simpl in H; try discriminate.
  injection H as Hx Hw. subst x.
  assert (Hc : In c (filter (id_eq cid) (filter (user_id_eq uid) (contacts w))))
    by (rewrite E; now left).
  apply filter_In in Hc. destruct Hc as [Hc Hi].
  apply filter_In in Hc. destruct Hc as [Hc Ho].
  repeat split.
  - exact Hc.
  - now apply Z.eqb_eq in Hi.
  - now apply user_id_eq_iff.
Qed.

(** A row of another key stays where it is when a row is written. *)
Lemma replace_row_keeps (row c : Contact) (cs : list Contact) :
  In c cs -> id c <> id row -> In c (replace_row id row cs).
Proof.
  intros Hc Hne. unfold replace_row. apply in_map_iff. exists c.
  split; [|exact Hc].
  destruct (id c =? id row) eqn:E; [|reflexivity].
  apply Z.eqb_eq in E. contradiction.
Qed.

(** What the update and the removal select belongs to the caller. *)
Lemma selected_row (cs : list Contact) (cid uid : Z) (x : Contact)
      (rest : list Contact) :
  filter (id_eq cid) (filter (user_id_eq uid) cs) = x :: rest ->
  In x cs /\ user_id x = Some uid.
Proof.
  intros E.
  assert (Hx : In x (filter (id_eq cid) (filter (user_id_eq uid) cs)))
    by (rewrite E; now left).
  apply filter_In in Hx. destruct Hx as [Hx _].
  apply filter_In in Hx. destruct Hx as [Hx Ho].
  split; [exact Hx | now apply user_id_eq_iff].
Qed.

(** The update on behalf of one user leaves the stored contacts of the other
    owners as they are, whatever it returns. *)
Lemma update_contact_keeps_other_owners :
  forall (w w' : World) (cid uid : Z) (body : ContactModel)
         (r : result (option Contact)) (c : Contact),
    wf_contacts (contacts w) -> In c (contacts w) ->
    user_id c <> Some uid ->
    repository_contacts.update_contact cid uid body w = (r, w') ->
    In c (contacts w').
Proof.
  intros w w' cid uid body r c ND Hc Hother H.
  unfold repository_contacts.update_contact, bind, get_world, lift in H.
  destruct (filter (id_eq cid) (filter (user_id_eq uid) (contacts w)))
    as [|x [|y rest]] eqn:E; cbn [scalar_one_or_none] in H.
  - unfold ret in H. injection H as _ <-. exact Hc.
  - destruct (selected_row _ _ _ _ _ E) as [Hx Hox].
    unfold db_commit_contact in H.
    destruct (flush_check (schema w) _).
    + injection H as _ <-. exact Hc.
    + unfold ret in H. injection H as _ <-. cbn [contacts set_contacts].
      apply replace_row_keeps; [exact Hc|]. cbn [id].
      intros Eid. apply Hother.
      rewrite (key_names_one_row id (contacts w) c x ND Hc Hx Eid).
      exact Hox.
  - injection H as _ <-. exact Hc.
Qed.

(** So does the removal. *)
Lemma remove_contact_keeps_other_owners :
  forall (w w' : World) (cid uid : Z) (r : result (option Contact))
         (c : Contact),
    wf_contacts (contacts w) -> In c (contacts w) ->
    user_id c <> Some uid ->
    repository_contacts.remove_contact cid uid w = (r, w') ->
    In c (contacts w').
Proof.
  intros w w' cid uid r c ND Hc Hother H.
  unfold repository_contacts.remove_contact, bind, get_world, lift in H.
  destruct (filter (id_eq cid) (filter (user_id_eq uid) (contacts w)))
    as [|x [|y rest]] eqn:E; cbn [scalar_one_or_none] in H.
  - unfold ret in H. injection H as _ <-. exact Hc.
  - destruct (selected_row _ _ _ _ _ E) as [Hx Hox].
    unfold db_delete_contact, ret in H. injection H as _ <-.
    cbn [contacts set_contacts]. apply filter_In. split; [exact Hc|].
    destruct (id c =? id x) eqn:Eid; [|reflexivity].
    apply Z.eqb_eq in Eid. exfalso. apply Hother.
    rewrite (key_names_one_row id (contacts w) c x ND Hc Hx Eid).
    exact Hox.
  - injection H as _ <-. exact Hc.
Qed.

(** The rows of the birthday query, written out. *)
Lemma get_upcoming_birthdays_rows (w : World) :
  repository_contacts.get_upcoming_birthdays w
  = (Ok (filter
           (fun c =>
              and_ [ sql_ge (extract_month (birthday c)) (month (today w));
                     sql_ge (extract_day (birthday c)) (day (today w));
                     sql_le (extract_month (birthday c))
                            (month (add_days 7 (today w)));
                     sql_le (extract_day (birthday c))
                            (day (add_days 7 (today w))) ])
           (contacts w)), w).
Proof. reflexivity. Qed.

(** The four comparisons of the birthday query, on one column value. *)
Lemma birthday_comparisons (t wk : date) (v : pyval) :
  and_ [ sql_ge (extract_month v) (month t);
         sql_ge (extract_day v) (day t);
         sql_le (extract_month v) (month wk);
         sql_le (extract_day v) (day wk) ] = true
  <-> exists d,
      v = PDate d
      /\ month t <= month d <= month wk
      /\ day t <= day d <= day wk.
Proof.
  unfold and_. cbn [forallb].
  destruct v as [|s|d|items];
    cbn [extract_day extract_month sql_ge sql_le andb].
  - split; [discriminate | intros (d & H & _); discriminate].
  - split; [discriminate | intros (d & H & _); discriminate].
  - rewrite !andb_true_iff, !Z.leb_le. split.
    + intros H. exists d. split; [reflexivity | lia].
    + intros (d' & H & Hm & Hd). injection H as <-. lia.
  - split; [discriminate | intros (d & H & _); discriminate].
Qed.

(** The rows of the birthday query: the stored contacts, of any owner, whose
    birthday is a date that passes the four comparisons. *)
Lemma get_upcoming_birthdays_In :
  forall (w : World) (c : Contact),
    (exists l w',
        repository_contacts.get_upcoming_birthdays w = (Ok l, w') /\ In c l)
    <->
    In c (contacts w)
    /\ exists d,
        birthday c = PDate d
        /\ month (today w) <= month d <= month (add_days 7 (today w))
        /\ day (today w) <= day d <= day (add_days 7 (today w)).
Proof.
  intros w c. rewrite get_upcoming_birthdays_rows.
  generalize (add_days 7 (today w)). intros wk.
  split.
  - intros (l & w' & E & Hc).
    injection E as El _. subst l.
    apply filter_In in Hc. destruct Hc as [Hc Hp].
    split; [exact Hc|].
    apply (birthday_comparisons (today w) wk). exact Hp.
  - intros (Hc & Hd).
    do 2 eexists. split; [reflexivity|].
    apply filter_In. split; [exact Hc|].
    apply (birthday_comparisons (today w) wk). exact Hd.
Qed.

(** C1. The birthdays route returns every stored contact whose month and day
    pass the four comparisons, whoever owns it: the caller and the owner of
    the contact do not occur in the condition. *)
Theorem birthdays_ignores_the_caller :
  forall (user : User) (w : World) (c : Contact) (d : date),
    In c (contacts w) ->
    birthday c = PDate d ->
    month (today w) <= month d <= month (add_days 7 (today w)) ->
    day (today w) <= day d <= day (add_days 7 (today w)) ->
    exists l, routes_contacts.birthdays user w = (Ok l, w) /\ In c l.
Proof.
  intros user w c d Hc Hb Hm Hd.
  unfold routes_contacts.birthdays. rewrite get_upcoming_birthdays_rows.
  revert Hm Hd. generalize (add_days 7 (today w)). intros wk Hm Hd.
  eexists. split; [reflexivity|].
  apply filter_In. split; [exact Hc|].
  apply (birthday_comparisons (today w) wk).
  exists d. split; [exact Hb|]. split; [exact Hm | exact Hd].
Qed.

Lemma birthdays_ignores_the_caller_witness :
  let w := Sample.world Sample.permissive (mkDate 2024 6 10) in
  user_id Sample.mark = Some 1
  /\ u_id Sample.bob = 2
  /\ exists l, routes_contacts.birthdays Sample.bob w = (Ok l, w)
               /\ In Sample.mark l.
Proof.
  intros w. split; [reflexivity|]. split; [reflexivity|].
  apply (birthdays_ignores_the_caller Sample.bob w Sample.mark
                                      (mkDate 1991 6 12)).
  - right; right; left; reflexivity.
  - reflexivity.
  - simpl; lia.
  - simpl; lia.
Defined.

(** C2. The contact that the creation route returns has no owner, whoever
    calls; where the table requires an owner the insertion is rejected and
    nothing is created. *)
Theorem create_contact_sets_no_owner :
  forall (body : ContactModel) (user : User) (w : World),
    match routes_contacts.create_contact body user w with
    | (Ok c, w') => user_id c = None /\ In c (contacts w')
    | (Raise e, w') =>
        e = IntegrityError /\ owner_required (schema w) = true /\ w' = w
    end.
Proof.
  intros body user w.
  unfold routes_contacts.create_contact, repository_contacts.create_contact,
    db_add_contact, flush_check.
  cbn [user_id has_owner negb]. rewrite andb_true_r.
  destruct (owner_required (schema w)); [auto|].
  assert (Ht : forall pk,
             well_typed
               (mkContact pk None (PStr (cm_first_name body))
                          (PStr (cm_last_name body)) (PStr (cm_email body))
                          (PStr (cm_phone body)) (PDate (cm_birthday body))
                          (match cm_additional_note body with
                           | Some s => PStr s
                           | None => PNone
                           end)) = true).
  { intros pk. unfold well_typed. simpl.
    destruct (cm_additional_note body); reflexivity. }
  rewrite Ht. simpl. rewrite andb_false_r.
  split; [reflexivity|]. simpl. apply in_or_app. right. now left.
Qed.

(** ** Updating a contact *)

(** C3. For a stored contact and its owner: where the storage takes any
    value, the update stores one-element tuples in [first_name], [last_name],
    [email], [phone] and [birthday], and a read after it returns these
    tuples, not the fields of the body; where the columns are typed, the
    update raises and the stored contact stays as it was.  [id], [user_id]
    are kept and [additional_note] is the one of the body. *)
Theorem update_contact_stores_tuples :
  forall (w : World) (c : Contact) (uid : Z) (body : ContactModel),
    wf_contacts (contacts w) -> In c (contacts w) -> user_id c = Some uid ->
    let c' :=
      mkContact (id c) (user_id c)
                (PTuple [PStr (cm_first_name body)])
                (PTuple [PStr (cm_last_name body)])
                (PTuple [PStr (cm_email body)])
                (PTuple [PStr (cm_phone body)])
                (PTuple [PDate (cm_birthday body)])
                (match cm_additional_note body with
                 | Some s => PStr s
                 | None => PNone
                 end) in
    (typed_columns (schema w) = false ->
     exists w',
       repository_contacts.update_contact (id c) uid body w = (Ok (Some c'), w')
       /\ repository_contacts.get_contact (id c) uid w' = (Ok (Some c'), w'))
    /\ (typed_columns (schema w) = true ->
        repository_contacts.update_contact (id c) uid body w
        = (Raise DBAPIError, w)
        /\ repository_contacts.get_contact (id c) uid w = (Ok (Some c), w)).
Proof.
  intros w c uid body ND Hc Ho c'.
  pose proof (select_by_id_and_owner (contacts w) c uid ND Hc Ho) as Hsel.
  assert (Hcheck : flush_check (schema w) c'
                   = if typed_columns (schema w) then Some DBAPIError else None).
  { unfold flush_check, has_owner. subst c'. cbn [user_id].
    rewrite Ho. cbn [negb]. rewrite andb_false_r.
    unfold well_typed. cbn [first_name is_text andb negb].
    now rewrite andb_true_r. }
  assert (Hupd : repository_contacts.update_contact (id c) uid body w
                 = match flush_check (schema w) c' with
                   | Some e => (Raise e, w)
                   | None =>
                       (Ok (Some c'),
                        set_contacts w (replace_row id c' (contacts w)))
                   end).
  { unfold repository_contacts.update_contact, bind, get_world, lift.
    rewrite Hsel. cbn [scalar_one_or_none].
    fold c'. unfold db_commit_contact.
    destruct (flush_check (schema w) c'); reflexivity. }
  split; intros Ht; rewrite Hupd, Hcheck, Ht.
  - eexists. split; [reflexivity|].
    unfold repository_contacts.get_contact, bind, get_world, lift.
    cbn [contacts set_contacts].
    assert (Hsel' : filter (id_eq (id c))
                           (filter (user_id_eq uid)
                                   (replace_row id c' (contacts w))) = [c']).
    { apply (select_by_id_and_owner _ c' uid).
      - unfold wf_contacts.
        now rewrite (replace_row_column id id c' c (contacts w) ND Hc
                                        eq_refl eq_refl).
      - now apply (replace_row_In id c' c).
      - exact Ho. }
    rewrite Hsel'. reflexivity.
  - split; [reflexivity|].
    unfold repository_contacts.get_contact, bind, get_world, lift.
    rewrite Hsel. reflexivity.
Qed.

Lemma update_contact_stores_tuples_witness :
  let d := mkDate 2024 6 25 in
  let stored :=
    mkContact 1 (Some 1)
              (PTuple [PStr "Jon"]) (PTuple [PStr "Dow"])
              (PTuple [PStr "jon@example.com"]) (PTuple [PStr "555-0199"])
              (PTuple [PDate (mkDate 1990 7 1)]) (PStr "renamed") in
  (exists w',
      repository_contacts.update_contact 1 1 Sample.body
        (Sample.world Sample.permissive d) = (Ok (Some stored), w')
      /\ repository_contacts.get_contact 1 1 w' = (Ok (Some stored), w'))
  /\ repository_contacts.update_contact 1 1 Sample.body
       (Sample.world Sample.strict d)
     = (Raise DBAPIError, Sample.world Sample.strict d)
  /\ first_name stored <> PStr (cm_first_name Sample.body).
Proof.
  intros d stored.
  assert (ND : forall sc, wf_contacts (contacts (Sample.world sc d)))
    by (intros sc; unfold wf_contacts; solve_NoDup).
  assert (Hin : forall sc, In Sample.john (contacts (Sample.world sc d)))
    by (intros sc; left; reflexivity).
  split; [|split].
  - exact (proj1 (update_contact_stores_tuples
                    (Sample.world Sample.permissive d) Sample.john 1
                    Sample.body (ND _) (Hin _) eq_refl) eq_refl).
  - exact (proj1 (proj2 (update_contact_stores_tuples
                           (Sample.world Sample.strict d) Sample.john 1
                           Sample.body (ND _) (Hin _) eq_refl) eq_refl)).
  - discriminate.
Defined.

(** ** Upcoming birthdays *)

(** C4. Whenever the day of the month seven days from today is smaller than
    the day of today, which is whenever the week runs into the next month,
    the four comparisons hold of no date and the query returns nothing. *)
Theorem birthdays_empty_across_month_end :
  forall w : World,
    day (add_days 7 (today w)) < day (today w) ->
    repository_contacts.get_upcoming_birthdays w = (Ok [], w).
Proof.
  intros w. rewrite get_upcoming_birthdays_rows.
  generalize (add_days 7 (today w)). intros wk Hlt.
  rewrite filter_none; [reflexivity|].
  intros c _.
  destruct (and_ _) eqn:E; [|reflexivity].
  apply (birthday_comparisons (today w) wk) in E.
  destruct E as (d & _ & _ & Hd). lia.
Qed.

(** On 2024-06-25 the contact born on a 30th of June is stored and is not
    returned. *)
Lemma birthdays_empty_across_month_end_witness :
  let w := Sample.world Sample.permissive (mkDate 2024 6 25) in
  add_days 7 (today w) = mkDate 2024 7 2
  /\ In Sample.john (contacts w)
  /\ birthday Sample.john = PDate (mkDate 1990 6 30)
  /\ repository_contacts.get_upcoming_birthdays w = (Ok [], w).
Proof.
  intros w. split; [reflexivity|]. split; [left; reflexivity|].
  split; [reflexivity|].
  apply (birthdays_empty_across_month_end w). simpl. lia.
Defined.

(** ** Reading one contact *)

(** C5. When no stored contact has the key asked for and the caller as
    owner, the route raises [NoResultFound]; it answers neither with a
    contact nor with the 404 of its test on [None]. *)
Theorem read_contact_raises_NoResultFound :
  forall (cid : Z) (user : User) (w : World),
    (forall c, In c (contacts w) -> id c = cid ->
               user_id c <> Some (u_id user)) ->
    routes_contacts.read_contact cid user w = (Raise NoResultFound, w).
Proof.
  intros cid user w H.
  unfold routes_contacts.read_contact, repository_contacts.get_contact,
    bind, get_world, lift.
  rewrite select_by_id_and_owner_none; [reflexivity | exact H].
Qed.

Lemma read_contact_raises_NoResultFound_witness :
  let w := Sample.world Sample.permissive (mkDate 2024 6 25) in
  In Sample.john (contacts w)
  /\ routes_contacts.read_contact 1 Sample.bob w = (Raise NoResultFound, w)
  /\ routes_contacts.read_contact 7 Sample.ann w = (Raise NoResultFound, w).
Proof.
  intros w. split; [left; reflexivity|]. split.
  - apply (read_contact_raises_NoResultFound 1 Sample.bob w).
    intros c [<-|[<-|[<-|[]]]] _; discriminate.
  - apply (read_contact_raises_NoResultFound 7 Sample.ann w).
    intros c [<-|[<-|[<-|[]]]]; discriminate.
Defined.

(** The route never answers 404, and a contact it returns belongs to the
    caller. *)
Lemma read_contact_outcomes :
  forall (cid : Z) (user : User) (w : World),
    match routes_contacts.read_contact cid user w with
    | (Ok c, _) => id c = cid /\ user_id c = Some (u_id user)
    | (Raise e, _) => e = NoResultFound \/ e = MultipleResultsFound
    end.
Proof.
  intros cid user w.
  unfold routes_contacts.read_contact, bind.
  destruct (repository_contacts.get_contact cid (u_id user) w)
    as [[[c|]|e] w'] eqn:E.
  - apply get_contact_owner_scoped in E. simpl. tauto.
  - exfalso.
    unfold repository_contacts.get_contact, bind, get_world, lift, ret in E.
    destruct (scalar_one _); discriminate.
  - unfold repository_contacts.get_contact, bind, get_world, lift, ret in E.
    destruct (filter _ _) as [|x [|y l]]; simpl in E; inversion E; auto.
Qed.

(** * Further properties of the handlers *)

(** ** Windows and unique keys *)

Lemma NoDup_map_filter {A K : Type} (key : A -> K) (p : A -> bool)
      (l : list A) :
  NoDup (map key l) -> NoDup (map key (filter p l)).
Proof.
  induction l as [|x l IH]; simpl; intros ND; [constructor|].
  inversion ND as [|k ks Hx ND']; subst.
  destruct (p x); simpl; [|now apply IH].
  constructor; [|now apply IH].
  intros Hin. apply Hx.
  apply in_map_iff in Hin. destruct Hin as (y & Ey & Hy).
  apply filter_In in Hy. destruct Hy as [Hy _].
  rewrite <- Ey. now apply in_map.
Qed.

Lemma keys_below_fresh {A : Type} (pk : A -> Z) (next : Z) (l : list A) :
  keys_below pk next l -> ~ In next (map pk l).
Proof.
  unfold keys_below. rewrite Forall_forall. intros H Hin.
  specialize (H next Hin). lia.
Qed.

(** A row with the next key joins a table of unique keys. *)
Lemma append_row_keeps_keys {A : Type} (pk : A -> Z) (next : Z) (l : list A)
      (r : A) :
  NoDup (map pk l) -> keys_below pk next l -> pk r = next ->
  NoDup (map pk (l ++ [r])%list) /\ keys_below pk (next + 1) (l ++ [r])%list.
Proof.
  intros ND Hb Er. rewrite map_app. simpl. split.
  - apply NoDup_app; [exact ND | solve_NoDup |].
    intros k Hk [<-|[]]. rewrite Er in Hk.
    now apply (keys_below_fresh pk next l).
  - unfold keys_below in *. rewrite map_app. apply Forall_app. split.
    + rewrite Forall_forall in *. intros k Hk. specialize (Hb k Hk). lia.
    + simpl. constructor; [lia | constructor].
Qed.

(** ** Removing, and what is left *)

(** X1. When the owner removes a stored contact, the route returns that
    contact, the contact is gone, every other stored contact and every user
    stay, a read of its key then raises [NoResultFound] and a second removal
    answers 404. *)
Theorem remove_contact_then_gone :
  forall (w : World) (c : Contact) (user : User),
    wf_contacts (contacts w) -> In c (contacts w) ->
    user_id c = Some (u_id user) ->
    exists w',
      routes_contacts.remove_contact (id c) user w = (Ok c, w')
      /\ ~ In c (contacts w')
      /\ (forall c', In c' (contacts w) -> c' <> c -> In c' (contacts w'))
      /\ users w' = users w
      /\ routes_contacts.read_contact (id c) user w' = (Raise NoResultFound, w')
      /\ routes_contacts.remove_contact (id c) user w'
         = (Raise (HTTPException HTTP_404_NOT_FOUND
                                 routes_contacts.NOT_FOUND_MESSAGE), w').
Proof.
  intros w c user ND Hc Ho.
  pose proof (select_by_id_and_owner (contacts w) c (u_id user) ND Hc Ho)
    as Hsel.
  set (w' := set_contacts w
               (filter (fun r => negb (id r =? id c)) (contacts w))).
  assert (Hgone : filter (id_eq (id c))
                         (filter (user_id_eq (u_id user)) (contacts w')) = []).
  { apply select_by_id_and_owner_none. intros x Hx Ex _.
    unfold w' in Hx. cbn [contacts set_contacts] in Hx.
    apply filter_In in Hx. destruct Hx as [_ Hx].
    rewrite Ex, Z.eqb_refl in Hx. discriminate. }
  exists w'. repeat split.
  - unfold routes_contacts.remove_contact, repository_contacts.remove_contact,
      bind, get_world, lift.
    rewrite Hsel. reflexivity.
  - unfold w'. cbn [contacts set_contacts]. intros Hin.
    apply filter_In in Hin. destruct Hin as [_ Hin].
    rewrite Z.eqb_refl in Hin. discriminate.
  - intros c' Hc' Hne. unfold w'. cbn [contacts set_contacts].
    apply filter_In. split; [exact Hc'|].
    destruct (id c' =? id c) eqn:E; [|reflexivity].
    apply Z.eqb_eq in E. exfalso. apply Hne.
    exact (key_names_one_row id (contacts w) c' c ND Hc' Hc E).
  - unfold routes_contacts.read_contact, repository_contacts.get_contact,
      bind, get_world, lift.
    rewrite Hgone. reflexivity.
  - unfold routes_contacts.remove_contact, repository_contacts.remove_contact,
      bind, get_world, lift.
    rewrite Hgone. reflexivity.
Qed.

Lemma remove_contact_then_gone_witness :
  let w := Sample.world Sample.permissive (mkDate 2024 6 25) in
  exists w',
    routes_contacts.remove_contact 2 Sample.ann w = (Ok Sample.joanna, w')
    /\ ~ In Sample.joanna (contacts w')
    /\ (forall c', In c' (contacts w) -> c' <> Sample.joanna ->
                   In c' (contacts w'))
    /\ users w' = users w
    /\ routes_contacts.read_contact 2 Sample.ann w' = (Raise NoResultFound, w')
    /\ routes_contacts.remove_contact 2 Sample.ann w'
       = (Raise (HTTPException HTTP_404_NOT_FOUND
                               routes_contacts.NOT_FOUND_MESSAGE), w').
Proof.
  intros w.
  apply (remove_contact_then_gone w Sample.joanna Sample.ann).
  - unfold wf_contacts. solve_NoDup.
  - right; left; reflexivity.
  - reflexivity.
Defined.

(** X2. An update or a removal of a key that no contact of the caller has,
    be it absent or the key of a contact of another owner, answers 404 and
    leaves the storage as it was. *)
Theorem update_remove_absent_404 :
  forall (w : World) (cid : Z) (user : User) (body : ContactModel),
    (forall c, In c (contacts w) -> id c = cid ->
               user_id c <> Some (u_id user)) ->
    routes_contacts.update_contact body cid user w
    = (Raise (HTTPException HTTP_404_NOT_FOUND
                            routes_contacts.NOT_FOUND_MESSAGE), w)
    /\ routes_contacts.remove_contact cid user w
       = (Raise (HTTPException HTTP_404_NOT_FOUND
                               routes_contacts.NOT_FOUND_MESSAGE), w).
Proof.
  intros w cid user body H.
  pose proof (select_by_id_and_owner_none (contacts w) cid (u_id user) H)
    as Hsel.
  split.
  - unfold routes_contacts.update_contact, repository_contacts.update_contact,
      bind, get_world, lift.
    rewrite Hsel. reflexivity.
  - unfold routes_contacts.remove_contact, repository_contacts.remove_contact,
      bind, get_world, lift.
    rewrite Hsel. reflexivity.
Qed.

Lemma update_remove_absent_404_witness :
  let w := Sample.world Sample.permissive (mkDate 2024 6 25) in
  In Sample.john (contacts w)
  /\ routes_contacts.update_contact Sample.body 1 Sample.bob w
     = (Raise (HTTPException HTTP_404_NOT_FOUND
                             routes_contacts.NOT_FOUND_MESSAGE), w)
  /\ routes_contacts.remove_contact 1 Sample.bob w
     = (Raise (HTTPException HTTP_404_NOT_FOUND
                             routes_contacts.NOT_FOUND_MESSAGE), w).
Proof.
  intros w. split; [left; reflexivity|].
  apply (update_remove_absent_404 w 1 Sample.bob Sample.body).
  intros c [<-|[<-|[<-|[]]]] _; discriminate.
Defined.

(** ** Creating a contact, and reaching it afterwards *)

(** The key and the place of a created contact. *)
Lemma create_contact_fields (body : ContactModel) (user : User)
      (w w' : World) (c : Contact) :
  routes_contacts.create_contact body user w = (Ok c, w') ->
  id c = next_contact_id w /\ contacts w' = (contacts w ++ [c])%list.
Proof.
  intros H.
  unfold routes_contacts.create_contact, repository_contacts.create_contact,
    db_add_contact in H.
  destruct (flush_check _ _); [discriminate|].
  injection H as <- <-. split; reflexivity.
Qed.

(** X4. A contact that the creation route returns holds the six fields of
    the body as they were sent, has the next key of the table, and is the one
    row added at the end of the table; the users are untouched. *)
Theorem create_contact_stores_body :
  forall (body : ContactModel) (user : User) (w w' : World) (c : Contact),
    routes_contacts.create_contact body user w = (Ok c, w') ->
    first_name c = PStr (cm_first_name body)
    /\ last_name c = PStr (cm_last_name body)
    /\ email c = PStr (cm_email body)
    /\ phone c = PStr (cm_phone body)
    /\ birthday c = PDate (cm_birthday body)
    /\ additional_note c
       = match cm_additional_note body with
         | Some s => PStr s
         | None => PNone
         end
    /\ id c = next_contact_id w
    /\ contacts w' = (contacts w ++ [c])%list
    /\ next_contact_id w' = next_contact_id w + 1
    /\ users w' = users w.
Proof.
  intros body user w w' c H.
  unfold routes_contacts.create_contact, repository_contacts.create_contact,
    db_add_contact in H.
  destruct (flush_check _ _); [discriminate|].
  injection H as <- <-. cbn. repeat split.
Qed.

Lemma create_contact_stores_body_witness :
  let w := Sample.world Sample.permissive (mkDate 2024 6 25) in
  exists c w',
    routes_contacts.create_contact Sample.body Sample.ann w = (Ok c, w')
    /\ first_name c = PStr "Jon"
    /\ birthday c = PDate (mkDate 1990 7 1)
    /\ additional_note c = PStr "renamed"
    /\ id c = 4
    /\ contacts w' = [Sample.john; Sample.joanna; Sample.mark; c].
Proof.
  intros w. do 2 eexists. split; [reflexivity|].
  destruct (create_contact_stores_body Sample.body Sample.ann w _ _ eq_refl)
    as (H1 & _ & _ & _ & H5 & H6 & H7 & H8 & _).
  repeat split; assumption.
Defined.

(** X5. On a table with unique keys, a contact that the creation route
    returned has no owner, so no route that selects by owner reaches it: for
    every reader, a read of its key raises [NoResultFound], an update and a
    removal of its key answer 404, and no listing of the reader's contacts
    holds it.  The birthday query, which names no owner, is the one route
    that returns it, to every reader, when the month and the day of the
    birthday of the body pass its four comparisons. *)
Theorem created_contact_is_out_of_reach :
  forall (body : ContactModel) (user : User) (w w' : World) (c : Contact),
    wf_contact_table w ->
    routes_contacts.create_contact body user w = (Ok c, w') ->
    forall reader : User,
      routes_contacts.read_contact (id c) reader w' = (Raise NoResultFound, w')
      /\ (forall body' : ContactModel,
             routes_contacts.update_contact body' (id c) reader w'
             = (Raise (HTTPException HTTP_404_NOT_FOUND
                                     routes_contacts.NOT_FOUND_MESSAGE), w'))
      /\ routes_contacts.remove_contact (id c) reader w'
         = (Raise (HTTPException HTTP_404_NOT_FOUND
                                 routes_contacts.NOT_FOUND_MESSAGE), w')
      /\ (forall (skip limit : Z) (name surname mail : option string)
                 (l : list Contact) (w'' : World),
             routes_contacts.read_contacts skip limit name surname mail
                                           reader w' = (Ok l, w'') ->
             ~ In c l)
      /\ (month (today w) <= month (cm_birthday body)
                          <= month (add_days 7 (today w)) ->
          day (today w) <= day (cm_birthday body)
                        <= day (add_days 7 (today w)) ->
          exists l,
            routes_contacts.birthdays reader w' = (Ok l, w') /\ In c l).
Proof.
  intros body user w w' c [ND Hb] H reader.
  assert (Hnone : user_id c = None
                  /\ birthday c = PDate (cm_birthday body)
                  /\ today w' = today w).
  { unfold routes_contacts.create_contact, repository_contacts.create_contact,
      db_add_contact in H.
    destruct (flush_check _ _); [discriminate|].
    injection H as <- <-. repeat split. }
  destruct Hnone as (Hnone & Hbirth & Htoday).
  destruct (create_contact_fields body user w w' c H) as (Hid & Hcs).
  assert (Hsel : forall x, In x (contacts w') -> id x = id c ->
                           user_id x <> Some (u_id reader)).
  { intros x Hx Ex. rewrite Hcs in Hx. apply in_app_iff in Hx.
    destruct Hx as [Hx | [<-|[]]].
    - exfalso. apply (keys_below_fresh id (next_contact_id w) (contacts w) Hb).
      rewrite <- Hid, <- Ex. now apply in_map.
    - rewrite Hnone. discriminate. }
  pose proof (select_by_id_and_owner_none (contacts w') (id c) (u_id reader)
                                          Hsel) as Hempty.
  split; [|split; [|split; [|split]]].
  - unfold routes_contacts.read_contact, repository_contacts.get_contact,
      bind, get_world, lift.
    rewrite Hempty. reflexivity.
  - intros body'.
    unfold routes_contacts.update_contact, repository_contacts.update_contact,
      bind, get_world, lift.
    rewrite Hempty. reflexivity.
  - unfold routes_contacts.remove_contact, repository_contacts.remove_contact,
      bind, get_world, lift.
    rewrite Hempty. reflexivity.
  - intros skip limit name surname mail l w'' Hl Hin.
    unfold routes_contacts.read_contacts in Hl.
    pose proof (get_contacts_owner_scoped w' w'' skip limit (u_id reader)
                                          name surname mail l c Hl Hin) as Ho.
    congruence.
  - intros Hm Hd.
    unfold routes_contacts.birthdays. rewrite get_upcoming_birthdays_rows.
    rewrite Htoday.
    revert Hm Hd. generalize (add_days 7 (today w)). intros wk Hm Hd.
    eexists. split; [reflexivity|].
    apply filter_In. split.
    + rewrite Hcs. apply in_or_app. right. now left.
    + apply (birthday_comparisons (today w) wk).
      exists (cm_birthday body). split; [exact Hbirth|].
      split; [exact Hm | exact Hd].
Qed.

Lemma created_contact_is_out_of_reach_witness :
  let w := Sample.world Sample.permissive (mkDate 2024 7 1) in
  exists c w',
    routes_contacts.create_contact Sample.body Sample.ann w = (Ok c, w')
    /\ In c (contacts w')
    /\ routes_contacts.read_contact (id c) Sample.ann w'
       = (Raise NoResultFound, w')
    /\ routes_contacts.remove_contact (id c) Sample.ann w'
       = (Raise (HTTPException HTTP_404_NOT_FOUND
                               routes_contacts.NOT_FOUND_MESSAGE), w')
    /\ exists l,
        routes_contacts.birthdays Sample.bob w' = (Ok l, w') /\ In c l.
Proof.
  intros w. do 2 eexists. split; [reflexivity|].
  split; [right; right; right; left; reflexivity|].
  assert (Hwf : wf_contact_table w).
  { split; [unfold wf_contacts; solve_NoDup|].
    unfold keys_below. simpl. repeat constructor. }
  destruct (created_contact_is_out_of_reach
              Sample.body Sample.ann w _ _ Hwf eq_refl Sample.ann)
    as (Hread & _ & Hremove & _).
  destruct (created_contact_is_out_of_reach
              Sample.body Sample.ann w _ _ Hwf eq_refl Sample.bob)
    as (_ & _ & _ & _ & Hbirth).
  split; [exact Hread|]. split; [exact Hremove|].
  apply Hbirth; simpl; lia.
Defined.

(** ** Keys stay unique *)

(** X6. The creation, update and removal routes keep the keys of the
    contacts unique and below the next key, whatever they answer. *)
Theorem contact_routes_keep_keys_unique :
  forall w : World,
    wf_contact_table w ->
    (forall (body : ContactModel) (user : User) (r : result Contact)
            (w' : World),
        routes_contacts.create_contact body user w = (r, w') ->
        wf_contact_table w')
    /\ (forall (body : ContactModel) (cid : Z) (user : User)
               (r : result Contact) (w' : World),
           routes_contacts.update_contact body cid user w = (r, w') ->
           wf_contact_table w')
    /\ (forall (cid : Z) (user : User) (r : result Contact) (w' : World),
           routes_contacts.remove_contact cid user w = (r, w') ->
           wf_contact_table w').
Proof.
  intros w [ND Hb]. split; [|split].
  - intros body user r w' H.
    unfold routes_contacts.create_contact, repository_contacts.create_contact,
      db_add_contact in H.
    destruct (flush_check _ _).
    + injection H as _ <-. now split.
    + injection H as _ <-. unfold wf_contact_table, wf_contacts.
      cbn [contacts next_contact_id].
      now apply append_row_keeps_keys.
  - intros body cid user r w' H.
    unfold routes_contacts.update_contact, repository_contacts.update_contact,
      bind, get_world, lift in H.
    destruct (filter (id_eq cid) (filter (user_id_eq (u_id user)) (contacts w)))
      as [|x [|y rest]] eqn:E; cbn [scalar_one_or_none] in H.
    + injection H as _ <-. now split.
    + destruct (selected_row _ _ _ _ _ E) as [Hx _].
      unfold db_commit_contact in H.
      destruct (flush_check (schema w) _).
      * injection H as _ <-. now split.
      * injection H as _ <-. unfold wf_contact_table, wf_contacts, keys_below.
        cbn [contacts next_contact_id set_contacts].
        rewrite replace_row_column with (a := x);
          [now split | exact ND | exact Hx | reflexivity | reflexivity].
    + injection H as _ <-. now split.
  - intros cid user r w' H.
    unfold routes_contacts.remove_contact, repository_contacts.remove_contact,
      bind, get_world, lift in H.
    destruct (filter (id_eq cid) (filter (user_id_eq (u_id user)) (contacts w)))
      as [|x [|y rest]] eqn:E; cbn [scalar_one_or_none] in H.
    + injection H as _ <-. now split.
    + injection H as _ <-. unfold wf_contact_table, wf_contacts, keys_below.
      cbn [contacts next_contact_id set_contacts].
      split; [now apply NoDup_map_filter|].
      unfold keys_below in Hb. rewrite Forall_forall in *.
      intros k Hk. apply Hb.
      apply in_map_iff in Hk. destruct Hk as (y & <- & Hy).
      apply filter_In in Hy. destruct Hy as [Hy _]. now apply in_map.
    + injection H as _ <-. now split.
Qed.

Lemma contact_routes_keep_keys_unique_witness :
  let w := Sample.world Sample.permissive (mkDate 2024 6 25) in
  wf_contact_table w
  /\ wf_contact_table
       (snd (routes_contacts.create_contact Sample.body Sample.ann w))
  /\ wf_contact_table
       (snd (routes_contacts.update_contact Sample.body 1 Sample.ann w))
  /\ wf_contact_table (snd (routes_contacts.remove_contact 1 Sample.ann w)).
Proof.
  intros w.
  assert (Hwf : wf_contact_table w).
  { split; [unfold wf_contacts; solve_NoDup|].
    unfold keys_below. simpl. repeat constructor. }
  destruct (contact_routes_keep_keys_unique w Hwf) as (Hc & Hu & Hr).
  split; [exact Hwf|]. split; [|split].
  - exact (Hc Sample.body Sample.ann _ _ (surjective_pairing _)).
  - exact (Hu Sample.body 1 Sample.ann _ _ (surjective_pairing _)).
  - exact (Hr 1 Sample.ann _ _ (surjective_pairing _)).
Defined.

(** ** Contacts of the other owners *)

(** X7. An update or a removal on behalf of one user leaves every stored
    contact of another owner in the table, whatever key is named and
    whatever the route answers. *)
Theorem routes_keep_other_owners_contacts :
  forall (w : World) (user : User) (c : Contact),
    wf_contacts (contacts w) -> In c (contacts w) ->
    user_id c <> Some (u_id user) ->
    (forall (body : ContactModel) (cid : Z) (r : result Contact) (w' : World),
        routes_contacts.update_contact body cid user w = (r, w') ->
        In c (contacts w'))
    /\ (forall (cid : Z) (r : result Contact) (w' : World),
           routes_contacts.remove_contact cid user w = (r, w') ->
           In c (contacts w')).
Proof.
  intros w user c ND Hc Hother. split.
  - intros body cid r w' H.
    unfold routes_contacts.update_contact, bind in H.
    destruct (repository_contacts.update_contact cid (u_id user) body w)
      as [[[x|]|e] w1] eqn:E;
      [unfold ret in H | unfold raise in H | ]; injection H as _ <-;
      exact (update_contact_keeps_other_owners w w1 cid (u_id user) body _ c
                                               ND Hc Hother E).
  - intros cid r w' H.
    unfold routes_contacts.remove_contact, bind in H.
    destruct (repository_contacts.remove_contact cid (u_id user) w)
      as [[[x|]|e] w1] eqn:E;
      [unfold ret in H | unfold raise in H | ]; injection H as _ <-;
      exact (remove_contact_keeps_other_owners w w1 cid (u_id user) _ c
                                               ND Hc Hother E).
Qed.

Lemma routes_keep_other_owners_contacts_witness :
  let w := Sample.world Sample.permissive (mkDate 2024 6 25) in
  user_id Sample.john = Some 1
  /\ u_id Sample.bob = 2
  /\ In Sample.john
        (contacts (snd (routes_contacts.update_contact Sample.body 1
                                                       Sample.bob w)))
  /\ In Sample.john
        (contacts (snd (routes_contacts.remove_contact 1 Sample.bob w))).
Proof.
  intros w. split; [reflexivity|]. split; [reflexivity|].
  assert (ND : wf_contacts (contacts w)) by (unfold wf_contacts; solve_NoDup).
  assert (Hin : In Sample.john (contacts w)) by (left; reflexivity).
  assert (Ho : user_id Sample.john <> Some (u_id Sample.bob)) by discriminate.
  destruct (routes_keep_other_owners_contacts w Sample.bob Sample.john
                                              ND Hin Ho) as (Hu & Hr).
  split.
  - exact (Hu Sample.body 1 _ _ (surjective_pairing _)).
  - exact (Hr 1 _ _ (surjective_pairing _)).
Defined.

(** X8. Whatever filters and window are asked for, and whatever the columns
    hold, every contact that the listing route returns is a stored contact of
    the caller, and the storage is left as it was. *)
Theorem read_contacts_only_own :
  forall (w w' : World) (skip limit : Z) (name surname mail : option string)
         (user : User) (l : list Contact),
    routes_contacts.read_contacts skip limit name surname mail user w
    = (Ok l, w') ->
    w' = w
    /\ forall c, In c l -> In c (contacts w) /\ user_id c = Some (u_id user).
Proof.
  intros w w' skip limit name surname mail user l H.
  unfold routes_contacts.read_contacts in H.
  exact (get_contacts_rows w w' skip limit (u_id user) name surname mail l H).
Qed.

Lemma read_contacts_only_own_witness :
  let w := Sample.world Sample.permissive (mkDate 2024 6 25) in
  exists l,
    routes_contacts.read_contacts 1 5 None (Some "oe") None Sample.ann w
    = (Ok l, w)
    /\ l = [Sample.joanna; Sample.mark]
    /\ forall c, In c l -> In c (contacts w) /\ user_id c = Some 1.
Proof.
  intros w. exists [Sample.joanna; Sample.mark].
  assert (H : routes_contacts.read_contacts 1 5 None (Some "oe") None
                                            Sample.ann w
              = (Ok [Sample.joanna; Sample.mark], w))
    by (vm_compute; reflexivity).
  split; [exact H|]. split; [reflexivity|].
  exact (proj2 (read_contacts_only_own w w 1 5 None (Some "oe") None
                                       Sample.ann _ H)).
Defined.

(** ** Birthdays away from the end of the month *)

Lemma add_days_same_month (n : nat) (d : date) :
  day d + Z.of_nat n <= days_in_month (year d) (month d) ->
  add_days n d = mkDate (year d) (month d) (day d + Z.of_nat n).
Proof.
  revert d. induction n as [|n IH]; intros d H.
  - cbn [add_days]. rewrite Z.add_0_r. now destruct d.
  - cbn [add_days].
    assert (Hnext : next_day d = mkDate (year d) (month d) (day d + 1)).
    { unfold next_day.
      destruct (day d <? days_in_month (year d) (month d)) eqn:E;
        [reflexivity|].
      apply Z.ltb_ge in E. lia. }
    rewrite Hnext, IH; cbn [year month day]; [f_equal; lia | lia].
Qed.

(** X9. When the seventh day from today is still in the month of today, the
    birthday query returns exactly the stored contacts, of any owner, whose
    birthday is a date in the month of today with a day from the day of today
    to seven days later, both included; the year of the birthday plays no
    part. *)
Theorem get_upcoming_birthdays_within_month :
  forall (w : World) (c : Contact),
    day (today w) + 7 <= days_in_month (year (today w)) (month (today w)) ->
    ((exists l,
         repository_contacts.get_upcoming_birthdays w = (Ok l, w) /\ In c l)
     <-> In c (contacts w)
         /\ exists d,
             birthday c = PDate d
             /\ month d = month (today w)
             /\ day (today w) <= day d <= day (today w) + 7).
Proof.
  intros w c Hmonth.
  rewrite get_upcoming_birthdays_rows.
  rewrite (add_days_same_month 7 (today w) Hmonth).
  cbn [month day]. change (Z.of_nat 7) with 7.
  split.
  - intros (l & E & Hc). injection E as <-.
    apply filter_In in Hc. destruct Hc as [Hc Hp].
    split; [exact Hc|].
    apply (birthday_comparisons
             (today w)
             (mkDate (year (today w)) (month (today w)) (day (today w) + 7)))
      in Hp.
    destruct Hp as (d & Hb & Hm & Hd). cbn [month day] in Hm, Hd.
    exists d. split; [exact Hb|]. split; lia.
  - intros (Hc & d & Hb & Hm & Hd).
    eexists. split; [reflexivity|].
    apply filter_In. split; [exact Hc|].
    apply (birthday_comparisons
             (today w)
             (mkDate (year (today w)) (month (today w)) (day (today w) + 7))).
    exists d. cbn [month day]. split; [exact Hb|]. split; lia.
Qed.

Lemma get_upcoming_birthdays_within_month_witness :
  let w := Sample.world Sample.permissive (mkDate 2024 6 10) in
  exists l,
    repository_contacts.get_upcoming_birthdays w = (Ok l, w)
    /\ In Sample.mark l
    /\ birthday Sample.mark = PDate (mkDate 1991 6 12).
Proof.
  intros w.
  assert (Hmonth : day (today w) + 7
                   <= days_in_month (year (today w)) (month (today w)))
    by (vm_compute; discriminate).
  destruct (proj2 (get_upcoming_birthdays_within_month w Sample.mark Hmonth))
    as (l & E & Hl).
  - split; [right; right; left; reflexivity|].
    exists (mkDate 1991 6 12). split; [reflexivity|].
    split; [reflexivity | simpl; lia].
  - exists l. split; [exact E|]. split; [exact Hl | reflexivity].
Defined.

(** ** The user directory under the handlers *)

Lemma get_user_by_email_keeps (w w' : World) (mail : string)
      (r : result (option User)) :
  repository_users.get_user_by_email mail w = (r, w') -> w' = w.
Proof.
  unfold repository_users.get_user_by_email, bind, get_world, lift.
  intros H. now injection H.
Qed.

Lemma get_user_by_email_found (w w' : World) (mail : string) (u : User) :
  repository_users.get_user_by_email mail w = (Ok (Some u), w') ->
  In u (users w) /\ u_email u = mail.
Proof.
  unfold repository_users.get_user_by_email, bind, get_world, lift.
  destruct (filter _ (users w)) as [|x [|y l]] eqn:E; simpl; intros H;
    try discriminate.
  injection H as -> _.
  assert (Hu : In u (filter (fun u0 => String.eqb (u_email u0) mail) (users w)))
    by (rewrite E; now left).
  apply filter_In in Hu. destruct Hu as [Hu He].
  split; [exact Hu | now apply String.eqb_eq].
Qed.

Lemma get_user_by_email_none (w w' : World) (mail : string) :
  repository_users.get_user_by_email mail w = (Ok None, w') ->
  email_registered mail (users w) = false.
Proof.
  unfold repository_users.get_user_by_email, bind, get_world, lift.
  destruct (filter _ (users w)) as [|x [|y l]] eqn:E; simpl; intros H;
    try discriminate.
  unfold email_registered.
  destruct (existsb _ (users w)) eqn:Ex; [|reflexivity].
  apply existsb_exists in Ex. destruct Ex as (u & Hu & He).
  assert (Hin : In u (filter (fun u0 => String.eqb (u_email u0) mail)
                             (users w)))
    by (apply filter_In; auto).
  rewrite E in Hin. contradiction.
Qed.

Lemma email_registered_iff (mail : string) (us : list User) :
  email_registered mail us = true <-> In mail (map u_email us).
Proof.
  unfold email_registered. rewrite existsb_exists, in_map_iff.
  split; intros (u & H1 & H2).
  - exists u. split; [now apply String.eqb_eq | exact H1].
  - exists u. split; [exact H2 | now apply String.eqb_eq].
Qed.

(** A commit on a stored user that keeps key and email keeps the directory
    well formed. *)
Lemma db_commit_user_keeps_directory (w : World) (u u' : User) :
  wf_directory w -> In u (users w) ->
  u_id u' = u_id u -> u_email u' = u_email u ->
  wf_directory (snd (db_commit_user u' w)).
Proof.
  intros [[NDi NDe] Hb] Hu Ei Ee.
  unfold wf_directory, wf_users, keys_below.
  cbn [db_commit_user snd users next_user_id set_users].
  rewrite (replace_row_column u_id u_id u' u (users w) NDi Hu Ei Ei).
  rewrite (replace_row_column u_id u_email u' u (users w) NDi Hu Ei Ee).
  repeat split; assumption.
Qed.

(** An insertion keeps the directory well formed, whatever it answers. *)
Lemma db_add_user_keeps_directory (w w' : World) (pending : Z -> User)
      (r : result User) :
  wf_directory w ->
  (forall pk, u_id (pending pk) = pk) ->
  db_add_user pending w = (r, w') ->
  wf_directory w'.
Proof.
  intros [[NDi NDe] Hb] Hpk H. unfold db_add_user in H.
  destruct (email_registered _ (users w)) eqn:Ereg.
  - injection H as _ <-. repeat split; assumption.
  - injection H as _ <-.
    unfold wf_directory, wf_users. cbn [users next_user_id].
    destruct (append_row_keeps_keys u_id (next_user_id w) (users w)
                                    (pending (next_user_id w)) NDi Hb (Hpk _))
      as [Hi Hk].
    repeat split; [exact Hi | | exact Hk].
    rewrite map_app. apply NoDup_app; [exact NDe | solve_NoDup|].
    intros e He [<-|[]].
    apply email_registered_iff in He. congruence.
Qed.

Lemma signup_keeps_directory (svc : AuthService)
      (gravatar : string -> result string) (body : UserSchema)
      (base_url : string) (w w' : World) (r : result User) :
  wf_directory w ->
  routes_auth.signup svc gravatar body base_url w = (r, w') ->
  wf_directory w'.
Proof.
  intros Hwf H. unfold routes_auth.signup, bind in H.
  destruct (repository_users.get_user_by_email (us_email body) w)
    as [[o|e] w0] eqn:E;
    pose proof (get_user_by_email_keeps _ _ _ _ E) as ->.
  - destruct o as [u|]; cbn [is_set] in H.
    + unfold raise in H. injection H as _ <-. exact Hwf.
    + destruct (repository_users.create_user _ _ w) as [[u|e] w1] eqn:Ec;
        unfold repository_users.create_user in Ec;
        apply db_add_user_keeps_directory in Ec; try exact Hwf;
        try (intros pk; reflexivity).
      * unfold add_task, ret in H. injection H as _ <-. exact Ec.
      * injection H as _ <-. exact Ec.
  - injection H as _ <-. exact Hwf.
Qed.

Lemma login_keeps_directory (svc : AuthService)
      (body : OAuth2PasswordRequestForm) (w w' : World)
      (r : result TokenSchema) :
  wf_directory w ->
  routes_auth.login svc body w = (r, w') ->
  wf_directory w'.
Proof.
  intros Hwf H. unfold routes_auth.login, bind in H.
  destruct (repository_users.get_user_by_email (form_username body) w)
    as [[o|e] w0] eqn:E;
    pose proof (get_user_by_email_keeps _ _ _ _ E) as ->.
  - destruct o as [u|].
    + destruct (get_user_by_email_found _ _ _ _ E) as [Hu _].
      destruct (negb (is_confirmed u)).
      * unfold raise in H. injection H as _ <-. exact Hwf.
      * destruct (negb (verify_password svc (form_password body) (password u))).
        -- unfold raise in H. injection H as _ <-. exact Hwf.
        -- unfold repository_users.update_token, db_commit_user, ret in H.
           injection H as _ <-.
           exact (db_commit_user_keeps_directory
                    w u (with_refresh_token u _) Hwf Hu eq_refl eq_refl).
    + unfold raise in H. injection H as _ <-. exact Hwf.
  - injection H as _ <-. exact Hwf.
Qed.

Lemma refresh_token_keeps_directory (svc : AuthService) (credentials : string)
      (w w' : World) (r : result TokenSchema) :
  wf_directory w ->
  routes_auth.refresh_token svc credentials w = (r, w') ->
  wf_directory w'.
Proof.
  intros Hwf H. unfold routes_auth.refresh_token, bind, lift in H.
  destruct (get_email_form_refresh_token svc credentials) as [mail|e];
    [|injection H as _ <-; exact Hwf].
  destruct (repository_users.get_user_by_email mail w)
    as [[o|e] w0] eqn:E;
    pose proof (get_user_by_email_keeps _ _ _ _ E) as ->;
    [|injection H as _ <-; exact Hwf].
  destruct o as [u|]; cbn [deref] in H;
    [|unfold raise in H; injection H as _ <-; exact Hwf].
  destruct (get_user_by_email_found _ _ _ _ E) as [Hu _].
  unfold ret in H.
  destruct (token_differs (refresh_token u) credentials);
    unfold repository_users.update_token, db_commit_user, ret, raise in H;
    injection H as _ <-;
    exact (db_commit_user_keeps_directory
             w u (with_refresh_token u _) Hwf Hu eq_refl eq_refl).
Qed.

Lemma confirmed_email_keeps_directory (svc : AuthService) (token : string)
      (w w' : World) (r : result string) :
  wf_directory w ->
  routes_auth.confirmed_email svc token w = (r, w') ->
  wf_directory w'.
Proof.
  intros Hwf H. unfold routes_auth.confirmed_email, bind, lift in H.
  destruct (get_email_from_token svc token) as [mail|e];
    [|injection H as _ <-; exact Hwf].
  destruct (repository_users.get_user_by_email mail w)
    as [[o|e] w0] eqn:E;
    pose proof (get_user_by_email_keeps _ _ _ _ E) as ->;
    [|injection H as _ <-; exact Hwf].
  destruct o as [u|];
    [|unfold raise in H; injection H as _ <-; exact Hwf].
  destruct (get_user_by_email_found _ _ _ _ E) as [Hu He].
  destruct (is_confirmed u);
    [unfold ret in H; injection H as _ <-; exact Hwf|].
  subst mail.
  destruct (confirmed_email_run w u (proj1 Hwf) Hu) as (Hrun & _).
  rewrite Hrun in H.
  pose proof (db_commit_user_keeps_directory
                w u (with_is_confirmed u true) Hwf Hu eq_refl eq_refl) as Hw1.
  destruct (expire_on_commit (schema w));
    [|unfold ret in H]; injection H as _ <-; exact Hw1.
Qed.

Lemma request_email_keeps_users (body_email base_url : string)
      (w w' : World) (r : result string) :
  routes_auth.request_email body_email base_url w = (r, w') ->
  users w' = users w /\ next_user_id w' = next_user_id w
  /\ contacts w' = contacts w.
Proof.
  intros H. unfold routes_auth.request_email, bind in H.
  destruct (repository_users.get_user_by_email body_email w)
    as [[o|e] w0] eqn:E;
    pose proof (get_user_by_email_keeps _ _ _ _ E) as ->;
    [|injection H as _ <-; auto].
  destruct o as [u|]; cbn [deref is_set] in H;
    [|unfold raise in H; injection H as _ <-; auto].
  unfold ret in H. destruct (is_confirmed u).
  - injection H as _ <-. auto.
  - unfold add_task in H. injection H as _ <-. auto.
Qed.

(** X10. The five routes of the user directory keep the keys and the emails
    of the users unique, and the keys below the next key, whatever they
    answer. *)
Theorem auth_routes_keep_directory :
  forall (svc : AuthService) (gravatar : string -> result string) (w : World),
    wf_directory w ->
    (forall body base_url r w',
        routes_auth.signup svc gravatar body base_url w = (r, w') ->
        wf_directory w')
    /\ (forall body r w',
           routes_auth.login svc body w = (r, w') -> wf_directory w')
    /\ (forall credentials r w',
           routes_auth.refresh_token svc credentials w = (r, w') ->
           wf_directory w')
    /\ (forall token r w',
           routes_auth.confirmed_email svc token w = (r, w') ->
           wf_directory w')
    /\ (forall body_email base_url r w',
           routes_auth.request_email body_email base_url w = (r, w') ->
           wf_directory w').
Proof.
  intros svc gravatar w Hwf. split; [|split; [|split; [|split]]].
  - intros body base_url r w'. now apply signup_keeps_directory.
  - intros body r w'. now apply login_keeps_directory.
  - intros credentials r w'. now apply refresh_token_keeps_directory.
  - intros token r w'. now apply confirmed_email_keeps_directory.
  - intros body_email base_url r w' H.
    destruct (request_email_keeps_users _ _ _ _ _ H) as (Hu & Hn & _).
    unfold wf_directory. rewrite Hu, Hn. exact Hwf.
Qed.

Lemma auth_routes_keep_directory_witness :
  let w := Sample.world Sample.permissive (mkDate 2024 6 25) in
  wf_directory w
  /\ wf_directory
       (snd (routes_auth.signup Sample.svc Sample.gravatar_down Sample.carol
                                "http://testserver/" w))
  /\ wf_directory
       (snd (routes_auth.login Sample.svc
                               (mkLoginForm "ann@example.com" "secret") w))
  /\ wf_directory (snd (routes_auth.refresh_token Sample.svc "rt-0" w))
  /\ wf_directory (snd (routes_auth.confirmed_email Sample.svc "confirm-bob" w)).
Proof.
  intros w.
  assert (Hwf : wf_directory w).
  { split; [split; solve_NoDup|]. unfold keys_below. simpl. repeat constructor. }
  destruct (auth_routes_keep_directory Sample.svc Sample.gravatar_down w Hwf)
    as (Hs & Hl & Hr & Hc & _).
  split; [exact Hwf|]. split; [|split; [|split]].
  - exact (Hs Sample.carol "http://testserver/" _ _ (surjective_pairing _)).
  - exact (Hl (mkLoginForm "ann@example.com" "secret") _ _
              (surjective_pairing _)).
  - exact (Hr "rt-0" _ _ (surjective_pairing _)).
  - exact (Hc "confirm-bob" _ _ (surjective_pairing _)).
Defined.

(** ** Signing up *)

(** What a signup with a new email does, step by step. *)
Lemma signup_run (svc : AuthService) (gravatar : string -> result string)
      (body : UserSchema) (base_url : string) (w : World) :
  email_registered (us_email body) (users w) = false ->
  let u :=
    mkUser (next_user_id w) (us_username body) (us_email body)
           (get_password_hash svc (us_password body))
           (match gravatar (us_email body) with
            | Ok url => Some url
            | Raise _ => None
            end) None false in
  routes_auth.signup svc gravatar body base_url w
  = (Ok u,
     mkWorld (schema w) (users w ++ [u]) (contacts w) (next_user_id w + 1)
             (next_contact_id w) (today w)
             (background_tasks w
              ++ [mkTask (us_email body) (us_username body) base_url])).
Proof.
  intros Hfresh u.
  unfold routes_auth.signup, bind.
  rewrite (get_user_by_email_unregistered w (us_email body) Hfresh).
  cbn [is_set].
  unfold repository_users.create_user, db_add_user.
  cbn [u_email us_email us_username us_password]. rewrite Hfresh.
  reflexivity.
Qed.

(** A user put at the end of a directory where the email was not registered
    is the one the lookup of the email finds. *)
Lemma lookup_appended (us : list User) (u : User) :
  email_registered (u_email u) us = false ->
  filter (fun x => String.eqb (u_email x) (u_email u)) (us ++ [u]) = [u].
Proof.
  intros Hfresh. rewrite filter_app.
  rewrite (filter_none (fun x => String.eqb (u_email x) (u_email u)) us).
  - simpl. now rewrite String.eqb_refl.
  - intros a Ha. destruct (String.eqb (u_email a) (u_email u)) eqn:E;
      [|reflexivity].
    assert (email_registered (u_email u) us = true)
      by (apply existsb_exists; eauto).
    congruence.
Qed.

(** X11. A signup with an email that is not registered creates the user
    with the next key, the name and email of the body, the hash of the
    password, no refresh token and not confirmed; it appends the user to the
    directory and one confirmation mail, to that email, to the background
    tasks; and the lookup of the email then finds the user. *)
Theorem signup_creates_unconfirmed_user :
  forall (svc : AuthService) (gravatar : string -> result string)
         (body : UserSchema) (base_url : string) (w : World),
    email_registered (us_email body) (users w) = false ->
    exists u w',
      routes_auth.signup svc gravatar body base_url w = (Ok u, w')
      /\ u_id u = next_user_id w
      /\ username u = us_username body
      /\ u_email u = us_email body
      /\ password u = get_password_hash svc (us_password body)
      /\ is_confirmed u = false
      /\ refresh_token u = None
      /\ users w' = (users w ++ [u])%list
      /\ background_tasks w'
         = (background_tasks w
            ++ [mkTask (us_email body) (us_username body) base_url])%list
      /\ contacts w' = contacts w
      /\ repository_users.get_user_by_email (us_email body) w'
         = (Ok (Some u), w').
Proof.
  intros svc gravatar body base_url w Hfresh.
  do 2 eexists. split; [exact (signup_run svc gravatar body base_url w Hfresh)|].
  repeat split.
  unfold repository_users.get_user_by_email, bind, get_world, lift.
  cbn [users].
  rewrite (lookup_appended (users w) (mkUser _ _ (us_email body) _ _ _ _) Hfresh).
  reflexivity.
Qed.

Lemma signup_creates_unconfirmed_user_witness :
  let w := Sample.world Sample.permissive (mkDate 2024 6 25) in
  exists u w',
    routes_auth.signup Sample.svc Sample.gravatar_down
                       (mkUserSchema "carol" "carol@example.com" "pw")
                       "http://testserver/" w = (Ok u, w')
    /\ u_id u = 3
    /\ password u = "h:pw"
    /\ is_confirmed u = false
    /\ background_tasks w'
       = [mkTask "carol@example.com" "carol" "http://testserver/"]
    /\ repository_users.get_user_by_email "carol@example.com" w'
       = (Ok (Some u), w').
Proof.
  intros w.
  destruct (signup_creates_unconfirmed_user
              Sample.svc Sample.gravatar_down
              (mkUserSchema "carol" "carol@example.com" "pw")
              "http://testserver/" w eq_refl)
    as (u & w' & H & Hid & _ & _ & Hpw & Hc & _ & _ & Ht & _ & Hl).
  exists u, w'. repeat split; assumption.
Defined.

(** X12. A signup with the email of a registered user answers 409 and leaves
    the storage and the background tasks as they were. *)
Theorem signup_registered_email_conflict :
  forall (svc : AuthService) (gravatar : string -> result string)
         (body : UserSchema) (base_url : string) (w : World) (u : User),
    wf_users (users w) -> In u (users w) -> us_email body = u_email u ->
    routes_auth.signup svc gravatar body base_url w
    = (Raise (HTTPException HTTP_409_CONFLICT "Account already exists"), w).
Proof.
  intros svc gravatar body base_url w u Hwf Hu He.
  unfold routes_auth.signup, bind.
  rewrite He, (get_user_by_email_registered w u Hwf Hu).
  reflexivity.
Qed.

Lemma signup_registered_email_conflict_witness :
  let w := Sample.world Sample.permissive (mkDate 2024 6 25) in
  routes_auth.signup Sample.svc Sample.gravatar_down
                     (mkUserSchema "ann2" "ann@example.com" "pw")
                     "http://testserver/" w
  = (Raise (HTTPException HTTP_409_CONFLICT "Account already exists"), w).
Proof.
  intros w.
  apply (signup_registered_email_conflict
           Sample.svc Sample.gravatar_down
           (mkUserSchema "ann2" "ann@example.com" "pw")
           "http://testserver/" w Sample.ann).
  - split; solve_NoDup.
  - left; reflexivity.
  - reflexivity.
Defined.

(** ** Logging in *)

(** X13. A login that raises leaves the storage as it was, the stored
    refresh token included, and raises one of the three 401 of the route (or
    the exception of a lookup that finds the email twice). *)
Theorem login_failure_changes_nothing :
  forall (svc : AuthService) (body : OAuth2PasswordRequestForm)
         (w w' : World) (e : exn),
    routes_auth.login svc body w = (Raise e, w') ->
    w' = w
    /\ (e = HTTPException HTTP_401_UNAUTHORIZED "Invalid email"
        \/ e = HTTPException HTTP_401_UNAUTHORIZED "Email not confirmed"
        \/ e = HTTPException HTTP_401_UNAUTHORIZED "Invalid password"
        \/ e = MultipleResultsFound).
Proof.
  intros svc body w w' e H. unfold routes_auth.login, bind in H.
  destruct (repository_users.get_user_by_email (form_username body) w)
    as [[o|e0] w0] eqn:E;
    pose proof (get_user_by_email_keeps _ _ _ _ E) as ->.
  - destruct o as [u|].
    + destruct (negb (is_confirmed u)).
      * unfold raise in H. injection H as <- <-. auto.
      * destruct (negb (verify_password svc (form_password body) (password u))).
        -- unfold raise in H. injection H as <- <-. auto.
        -- unfold repository_users.update_token, db_commit_user, ret in H.
           discriminate.
    + unfold raise in H. injection H as <- <-. auto.
  - injection H as <- <-. split; [reflexivity|].
    unfold repository_users.get_user_by_email, bind, get_world, lift in E.
    destruct (filter _ (users w)) as [|x [|y l]]; simpl in E;
      try discriminate.
    injection E as <-. auto.
Qed.

Lemma login_failure_changes_nothing_witness :
  let w := Sample.world Sample.permissive (mkDate 2024 6 25) in
  routes_auth.login Sample.svc (mkLoginForm "ann@example.com" "guess") w
  = (Raise (HTTPException HTTP_401_UNAUTHORIZED "Invalid password"), w)
  /\ w = w.
Proof.
  intros w. split; [reflexivity|].
  exact (eq_sym (proj1 (login_failure_changes_nothing
                          Sample.svc (mkLoginForm "ann@example.com" "guess")
                          w w _ eq_refl))).
Defined.

(** X14. The login route tests in this order: an email that is not
    registered answers "Invalid email"; a registered user who is not
    confirmed answers "Email not confirmed" whatever the password; a
    confirmed user with a password that does not verify answers "Invalid
    password". *)
Theorem login_refusals :
  forall (svc : AuthService) (body : OAuth2PasswordRequestForm) (w : World),
    (email_registered (form_username body) (users w) = false ->
     routes_auth.login svc body w
     = (Raise (HTTPException HTTP_401_UNAUTHORIZED "Invalid email"), w))
    /\ (forall u : User,
           wf_users (users w) -> In u (users w) ->
           form_username body = u_email u ->
           (is_confirmed u = false ->
            routes_auth.login svc body w
            = (Raise (HTTPException HTTP_401_UNAUTHORIZED
                                    "Email not confirmed"), w))
           /\ (is_confirmed u = true ->
               verify_password svc (form_password body) (password u) = false ->
               routes_auth.login svc body w
               = (Raise (HTTPException HTTP_401_UNAUTHORIZED
                                       "Invalid password"), w))).
Proof.
  intros svc body w. split.
  - intros Hfresh. unfold routes_auth.login, bind.
    now rewrite (get_user_by_email_unregistered w _ Hfresh).
  - intros u Hwf Hu He. split.
    + intros Hc. unfold routes_auth.login, bind.
      now rewrite He, (get_user_by_email_registered w u Hwf Hu), Hc.
    + intros Hc Hpw. unfold routes_auth.login, bind.
      now rewrite He, (get_user_by_email_registered w u Hwf Hu), Hc, Hpw.
Qed.

Lemma login_refusals_witness :
  let w := Sample.world Sample.permissive (mkDate 2024 6 25) in
  routes_auth.login Sample.svc (mkLoginForm "zed@example.com" "pw") w
  = (Raise (HTTPException HTTP_401_UNAUTHORIZED "Invalid email"), w)
  /\ routes_auth.login Sample.svc (mkLoginForm "bob@example.com" "hunter2") w
     = (Raise (HTTPException HTTP_401_UNAUTHORIZED "Email not confirmed"), w)
  /\ routes_auth.login Sample.svc (mkLoginForm "ann@example.com" "guess") w
     = (Raise (HTTPException HTTP_401_UNAUTHORIZED "Invalid password"), w).
Proof.
  intros w.
  assert (Hwf : wf_users (users w)) by (split; solve_NoDup).
  split; [|split].
  - exact (proj1 (login_refusals Sample.svc
                                 (mkLoginForm "zed@example.com" "pw") w)
                 eq_refl).
  - apply (proj2 (login_refusals Sample.svc
                                 (mkLoginForm "bob@example.com" "hunter2") w)
                 Sample.bob Hwf); [right; left|..]; reflexivity.
  - apply (proj2 (login_refusals Sample.svc
                                 (mkLoginForm "ann@example.com" "guess") w)
                 Sample.ann Hwf); [left|..]; reflexivity.
Defined.

(** What a login that passes the three tests does. *)
Lemma login_run (svc : AuthService) (body : OAuth2PasswordRequestForm)
      (w : World) (u : User) :
  wf_users (users w) -> In u (users w) ->
  form_username body = u_email u ->
  is_confirmed u = true ->
  verify_password svc (form_password body) (password u) = true ->
  let t := create_refresh_token svc [("sub", u_email u)] in
  let u' := with_refresh_token u (Some t) in
  exists w',
    routes_auth.login svc body w
    = (Ok (mkTokenSchema
             (create_access_token svc [("sub", u_email u); ("test", "test")])
             t "bearer"), w')
    /\ wf_users (users w')
    /\ In u' (users w')
    /\ repository_users.get_user_by_email (u_email u) w' = (Ok (Some u'), w').
Proof.
  intros Hwf Hu He Hc Hpw t u'.
  destruct (db_commit_user_stores w u u' Hwf Hu eq_refl eq_refl)
    as (w' & Hcommit & Hwf' & Hin' & _).
  exists w'. split; [|split; [exact Hwf' | split; [exact Hin'|]]].
  - unfold routes_auth.login, bind.
    rewrite He, (get_user_by_email_registered w u Hwf Hu), Hc, Hpw.
    cbv beta iota delta [negb].
    unfold repository_users.update_token. fold t. fold u'.
    rewrite Hcommit. reflexivity.
  - exact (get_user_by_email_registered w' u' Hwf' Hin').
Qed.

(** What a refresh does for a token that names a registered user. *)
Lemma refresh_token_run (svc : AuthService) (token : string) (w : World)
      (u : User) :
  wf_users (users w) -> In u (users w) ->
  get_email_form_refresh_token svc token = Ok (u_email u) ->
  let t := create_refresh_token svc [("sub", u_email u)] in
  let u' :=
    with_refresh_token
      u (if token_differs (refresh_token u) token then None else Some t) in
  exists w',
    routes_auth.refresh_token svc token w
    = ((if token_differs (refresh_token u) token
        then Raise (HTTPException HTTP_401_UNAUTHORIZED "Invalid refresh token")
        else Ok (mkTokenSchema (create_access_token svc [("sub", u_email u)])
                               t "bearer")), w')
    /\ wf_users (users w')
    /\ In u' (users w')
    /\ repository_users.get_user_by_email (u_email u) w' = (Ok (Some u'), w').
Proof.
  intros Hwf Hu Hdec t u'.
  destruct (db_commit_user_stores w u u' Hwf Hu eq_refl eq_refl)
    as (w' & Hcommit & Hwf' & Hin' & _).
  exists w'. split; [|split; [exact Hwf' | split; [exact Hin'|]]].
  - unfold routes_auth.refresh_token, bind, lift.
    rewrite Hdec, (get_user_by_email_registered w u Hwf Hu).
    cbv beta iota delta [deref ret].
    unfold u' in Hcommit.
    destruct (token_differs (refresh_token u) token);
      unfold repository_users.update_token; fold t; rewrite Hcommit;
      reflexivity.
  - exact (get_user_by_email_registered w' u' Hwf' Hin').
Qed.

(** ** From signup to the first login *)

(** X15. After a signup with a new email, a login with the email and the
    password of the signup is refused with "Email not confirmed".  The
    confirmation route, called with a token of that email, commits the
    confirmation; it answers "Email confirmed" on a session that keeps the
    attributes of its objects at a commit and raises [MissingGreenlet] on one
    that expires them.  After it the same login succeeds, provided the
    password verifies against its own hash, and the user that the directory
    then holds is confirmed and has the refresh token that the login
    returned. *)
Theorem signup_confirm_login :
  forall (svc : AuthService) (gravatar : string -> result string)
         (body : UserSchema) (base_url token : string) (w : World),
    wf_directory w ->
    email_registered (us_email body) (users w) = false ->
    verify_password svc (us_password body)
                    (get_password_hash svc (us_password body)) = true ->
    get_email_from_token svc token = Ok (us_email body) ->
    let form := mkLoginForm (us_email body) (us_password body) in
    exists (u : User) (w1 w2 w3 : World) (t : TokenSchema) (u3 : User),
      routes_auth.signup svc gravatar body base_url w = (Ok u, w1)
      /\ routes_auth.login svc form w1
         = (Raise (HTTPException HTTP_401_UNAUTHORIZED "Email not confirmed"),
            w1)
      /\ routes_auth.confirmed_email svc token w1
         = ((if expire_on_commit (schema w) then Raise MissingGreenlet
             else Ok "Email confirmed"), w2)
      /\ routes_auth.login svc form w2 = (Ok t, w3)
      /\ repository_users.get_user_by_email (us_email body) w3
         = (Ok (Some u3), w3)
      /\ is_confirmed u3 = true
      /\ refresh_token u3 = Some (ts_refresh_token t)
      /\ u_id u3 = u_id u
      /\ u_email u3 = us_email body
      /\ password u3 = get_password_hash svc (us_password body).
Proof.
  intros svc gravatar body base_url token w Hwf Hfresh Hpw Hdec form.
  pose proof (signup_run svc gravatar body base_url w Hfresh) as Hsign.
  cbv zeta in Hsign.
  set (u := mkUser (next_user_id w) (us_username body) (us_email body)
                   (get_password_hash svc (us_password body))
                   (match gravatar (us_email body) with
                    | Ok url => Some url
                    | Raise _ => None
                    end) None false) in *.
  set (w1 := mkWorld (schema w) (users w ++ [u]) (contacts w)
                     (next_user_id w + 1) (next_contact_id w) (today w)
                     (background_tasks w
                      ++ [mkTask (us_email body) (us_username body) base_url]))
    in *.
  assert (Hwf1 : wf_users (users w1))
    by exact (proj1 (signup_keeps_directory svc gravatar body base_url
                                            w w1 _ Hwf Hsign)).
  assert (Hin1 : In u (users w1))
    by (unfold w1; cbn [users]; apply in_or_app; right; now left).
  pose proof (get_user_by_email_registered w1 u Hwf1 Hin1) as Hget1.
  change (u_email u) with (us_email body) in Hget1.
  destruct (confirmed_email_run w1 u Hwf1 Hin1) as (Hrun & Hwf2 & Hin2 & _).
  change (u_email u) with (us_email body) in Hrun.
  change (schema w1) with (schema w) in Hrun.
  set (u2 := with_is_confirmed u true) in *.
  set (w2 := set_users w1 (replace_row u_id u2 (users w1))) in *.
  destruct (login_run svc form w2 u2 Hwf2 Hin2 eq_refl eq_refl Hpw)
    as (w3 & Hlogin & _ & _ & Hget3).
  exists u, w1, w2, w3. do 2 eexists.
  split; [exact Hsign|].
  split; [|split; [|split; [exact Hlogin | split; [exact Hget3|]]]].
  - unfold routes_auth.login, bind. cbn [form_username form]. rewrite Hget1.
    reflexivity.
  - unfold routes_auth.confirmed_email, bind, lift.
    rewrite Hdec, Hget1. cbn [is_confirmed u].
    fold (bind (repository_users.confirmed_email (us_email body))
               (fun _ => ret "Email confirmed") w1).
    unfold bind. rewrite Hrun.
    destruct (expire_on_commit (schema w)); reflexivity.
  - repeat split.
Qed.

Lemma signup_confirm_login_witness :
  let w := Sample.world Sample.strict (mkDate 2024 6 25) in
  let svc :=
    mkAuthService (get_password_hash Sample.svc) (verify_password Sample.svc)
                  (create_access_token Sample.svc)
                  (create_refresh_token Sample.svc)
                  (get_email_form_refresh_token Sample.svc)
                  (fun _ => Ok "carol@example.com") in
  let body := mkUserSchema "carol" "carol@example.com" "pw" in
  let form := mkLoginForm "carol@example.com" "pw" in
  exists (u : User) (w1 w2 w3 : World) (t : TokenSchema) (u3 : User),
    routes_auth.signup svc Sample.gravatar_down body "http://testserver/" w
    = (Ok u, w1)
    /\ routes_auth.login svc form w1
       = (Raise (HTTPException HTTP_401_UNAUTHORIZED "Email not confirmed"), w1)
    /\ routes_auth.confirmed_email svc "confirm-carol" w1
       = (Raise MissingGreenlet, w2)
    /\ routes_auth.login svc form w2 = (Ok t, w3)
    /\ repository_users.get_user_by_email "carol@example.com" w3
       = (Ok (Some u3), w3)
    /\ is_confirmed u3 = true
    /\ refresh_token u3 = Some (ts_refresh_token t)
    /\ u_id u3 = u_id u
    /\ u_email u3 = "carol@example.com"
    /\ password u3 = "h:pw".
Proof.
  intros w svc body form.
  apply (signup_confirm_login svc Sample.gravatar_down body
                              "http://testserver/" "confirm-carol" w).
  - split; [split; solve_NoDup|]. unfold keys_below. simpl. repeat constructor.
  - reflexivity.
  - reflexivity.
  - reflexivity.
Defined.

(** ** Presenting a refresh token again *)

(** X16. After a refresh has replaced the stored token by a different one, a
    second refresh with the old token answers 401 and clears the stored
    token; after that the new token is refused as well. *)
Theorem refresh_token_replay_logs_out :
  forall (svc : AuthService) (w : World) (u : User) (token : string),
    wf_users (users w) -> In u (users w) ->
    refresh_token u = Some token ->
    get_email_form_refresh_token svc token = Ok (u_email u) ->
    create_refresh_token svc [("sub", u_email u)] <> token ->
    get_email_form_refresh_token
      svc (create_refresh_token svc [("sub", u_email u)]) = Ok (u_email u) ->
    exists (t : TokenSchema) (w1 w2 w3 : World),
      routes_auth.refresh_token svc token w = (Ok t, w1)
      /\ ts_refresh_token t = create_refresh_token svc [("sub", u_email u)]
      /\ routes_auth.refresh_token svc token w1
         = (Raise (HTTPException HTTP_401_UNAUTHORIZED "Invalid refresh token"),
            w2)
      /\ repository_users.get_user_by_email (u_email u) w2
         = (Ok (Some (with_refresh_token u None)), w2)
      /\ routes_auth.refresh_token svc (ts_refresh_token t) w2
         = (Raise (HTTPException HTTP_401_UNAUTHORIZED "Invalid refresh token"),
            w3)
      /\ repository_users.get_user_by_email (u_email u) w3
         = (Ok (Some (with_refresh_token u None)), w3).
Proof.
  intros svc w u token Hwf Hu Hstored Hdec Hnew Hdec'.
  set (t' := create_refresh_token svc [("sub", u_email u)]) in *.
  assert (Hsame : token_differs (Some token) token = false)
    by (unfold token_differs; now rewrite String.eqb_refl).
  assert (Hdiff : token_differs (Some t') token = true).
  { unfold token_differs. destruct (String.eqb t' token) eqn:E; [|reflexivity].
    apply String.eqb_eq in E. contradiction. }
  destruct (refresh_token_run svc token w u Hwf Hu Hdec)
    as (w1 & H1 & Hwf1 & Hin1 & _).
  rewrite Hstored, Hsame in H1, Hin1. fold t' in H1, Hin1.
  destruct (refresh_token_run svc token w1 (with_refresh_token u (Some t'))
                              Hwf1 Hin1 Hdec)
    as (w2 & H2 & Hwf2 & Hin2 & Hget2).
  cbn [refresh_token with_refresh_token u_email] in H2, Hin2, Hget2.
  rewrite Hdiff in H2, Hin2, Hget2.
  change (with_refresh_token (with_refresh_token u (Some t')) None)
    with (with_refresh_token u None) in Hin2, Hget2.
  destruct (refresh_token_run svc t' w2 (with_refresh_token u None)
                              Hwf2 Hin2 Hdec')
    as (w3 & H3 & _ & _ & Hget3).
  cbn [refresh_token with_refresh_token u_email token_differs] in H3, Hget3.
  eexists. exists w1, w2, w3.
  split; [exact H1|]. split; [reflexivity|].
  split; [exact H2|]. split; [exact Hget2|].
  split; [exact H3 | exact Hget3].
Qed.

Lemma refresh_token_replay_logs_out_witness :
  let w := Sample.world Sample.permissive (mkDate 2024 6 25) in
  exists (t : TokenSchema) (w1 w2 w3 : World),
    routes_auth.refresh_token Sample.svc "rt-1" w = (Ok t, w1)
    /\ ts_refresh_token t = "rt-2"
    /\ routes_auth.refresh_token Sample.svc "rt-1" w1
       = (Raise (HTTPException HTTP_401_UNAUTHORIZED "Invalid refresh token"),
          w2)
    /\ repository_users.get_user_by_email "ann@example.com" w2
       = (Ok (Some (with_refresh_token Sample.ann None)), w2)
    /\ routes_auth.refresh_token Sample.svc (ts_refresh_token t) w2
       = (Raise (HTTPException HTTP_401_UNAUTHORIZED "Invalid refresh token"),
          w3)
    /\ repository_users.get_user_by_email "ann@example.com" w3
       = (Ok (Some (with_refresh_token Sample.ann None)), w3).
Proof.
  intros w.
  apply (refresh_token_replay_logs_out Sample.svc w Sample.ann "rt-1").
  - split; solve_NoDup.
  - left; reflexivity.
  - reflexivity.
  - reflexivity.
  - discriminate.
  - reflexivity.
Defined.

(** ** Tokens that name nobody *)

(** X17. A refresh with a token that the token service rejects raises what
    the service raised; a refresh with a token whose email is not registered
    raises [AttributeError], at the read of the stored token; a confirmation
    with a token whose email is not registered answers 400.  Each leaves the
    storage as it was. *)
Theorem tokens_of_nobody :
  forall (svc : AuthService) (token : string) (w : World),
    (forall e : exn,
        get_email_form_refresh_token svc token = Raise e ->
        routes_auth.refresh_token svc token w = (Raise e, w))
    /\ (forall mail : string,
           get_email_form_refresh_token svc token = Ok mail ->
           email_registered mail (users w) = false ->
           routes_auth.refresh_token svc token w = (Raise AttributeError, w))
    /\ (forall mail : string,
           get_email_from_token svc token = Ok mail ->
           email_registered mail (users w) = false ->
           routes_auth.confirmed_email svc token w
           = (Raise (HTTPException HTTP_400_BAD_REQUEST "Verification error"),
              w)).
Proof.
  intros svc token w. split; [|split].
  - intros e He. unfold routes_auth.refresh_token, bind, lift.
    now rewrite He.
  - intros mail Hdec Hfresh. unfold routes_auth.refresh_token, bind, lift.
    now rewrite Hdec, (get_user_by_email_unregistered w mail Hfresh).
  - intros mail Hdec Hfresh. unfold routes_auth.confirmed_email, bind, lift.
    now rewrite Hdec, (get_user_by_email_unregistered w mail Hfresh).
Qed.

Lemma tokens_of_nobody_witness :
  let svc :=
    mkAuthService (get_password_hash Sample.svc) (verify_password Sample.svc)
                  (create_access_token Sample.svc)
                  (create_refresh_token Sample.svc)
                  (fun t =>
                     if String.eqb t "expired"
                     then Raise (HTTPException HTTP_401_UNAUTHORIZED
                                               "Could not validate credentials")
                     else Ok "zed@example.com")
                  (fun _ => Ok "zed@example.com") in
  let w := Sample.world Sample.permissive (mkDate 2024 6 25) in
  routes_auth.refresh_token svc "expired" w
  = (Raise (HTTPException HTTP_401_UNAUTHORIZED
                          "Could not validate credentials"), w)
  /\ routes_auth.refresh_token svc "rt-zed" w = (Raise AttributeError, w)
  /\ routes_auth.confirmed_email svc "confirm-zed" w
     = (Raise (HTTPException HTTP_400_BAD_REQUEST "Verification error"), w).
Proof.
  intros svc w. split; [|split].
  - exact (proj1 (tokens_of_nobody svc "expired" w) _ eq_refl).
  - exact (proj1 (proj2 (tokens_of_nobody svc "rt-zed" w))
                 "zed@example.com" eq_refl eq_refl).
  - exact (proj2 (proj2 (tokens_of_nobody svc "confirm-zed" w))
                 "zed@example.com" eq_refl eq_refl).
Defined.

(** ** The avatar and the confirmation of a user *)

(** X18. For a registered user, [update_avatar] returns a user whose avatar
    is the new address and who is otherwise as before, the lookup of the
    email then finds that user, and the contacts are untouched; for an email
    that is not registered, [update_avatar] and [confirmed_email] raise
    [AttributeError] and change nothing. *)
Theorem update_avatar_stores :
  forall (w : World) (mail url : string),
    (forall u : User,
        wf_users (users w) -> In u (users w) -> u_email u = mail ->
        exists w' u',
          repository_users.update_avatar mail url w = (Ok u', w')
          /\ avatar u' = Some url
          /\ same_but_avatar u u'
          /\ repository_users.get_user_by_email mail w' = (Ok (Some u'), w')
          /\ contacts w' = contacts w)
    /\ (email_registered mail (users w) = false ->
        repository_users.update_avatar mail url w = (Raise AttributeError, w)
        /\ repository_users.confirmed_email mail w = (Raise AttributeError, w)).
Proof.
  intros w mail url. split.
  - intros u Hwf Hu <-.
    destruct (db_commit_user_stores w u (with_avatar u (Some url)) Hwf Hu
                                    eq_refl eq_refl)
      as (w' & Hcommit & Hwf' & Hin' & Hcs).
    exists w', (with_avatar u (Some url)).
    split; [|split; [reflexivity | split; [repeat split | split; [|exact Hcs]]]].
    + unfold repository_users.update_avatar, bind.
      rewrite (get_user_by_email_registered w u Hwf Hu).
      cbv beta iota delta [deref ret]. rewrite Hcommit. reflexivity.
    + exact (get_user_by_email_registered w' (with_avatar u (Some url))
                                          Hwf' Hin').
  - intros Hfresh. split.
    + unfold repository_users.update_avatar, bind.
      now rewrite (get_user_by_email_unregistered w mail Hfresh).
    + unfold repository_users.confirmed_email, bind.
      now rewrite (get_user_by_email_unregistered w mail Hfresh).
Qed.

Lemma update_avatar_stores_witness :
  let w := Sample.world Sample.permissive (mkDate 2024 6 25) in
  (exists w' u',
      repository_users.update_avatar "bob@example.com" "http://img/bob.png" w
      = (Ok u', w')
      /\ avatar u' = Some "http://img/bob.png"
      /\ same_but_avatar Sample.bob u'
      /\ repository_users.get_user_by_email "bob@example.com" w'
         = (Ok (Some u'), w')
      /\ contacts w' = contacts w)
  /\ repository_users.update_avatar "zed@example.com" "http://img/z.png" w
     = (Raise AttributeError, w).
Proof.
  intros w. split.
  - apply (proj1 (update_avatar_stores w "bob@example.com"
                                       "http://img/bob.png") Sample.bob).
    + split; solve_NoDup.
    + right; left; reflexivity.
    + reflexivity.
  - exact (proj1 (proj2 (update_avatar_stores w "zed@example.com"
                                              "http://img/z.png") eq_refl)).
Defined.

(** ** Asking for the confirmation mail, for a registered user *)

(** X19. For a registered user who is not confirmed, [request_email]
    appends one mail task, to the email and name of that user, and touches
    nothing else; for a confirmed user it answers that the email is already
    confirmed and enqueues nothing. *)
Theorem request_email_registered :
  forall (w : World) (u : User) (base_url : string),
    wf_users (users w) -> In u (users w) ->
    (is_confirmed u = false ->
     routes_auth.request_email (u_email u) base_url w
     = (Ok "Check your email for confirmation.",
        mkWorld (schema w) (users w) (contacts w) (next_user_id w)
                (next_contact_id w) (today w)
                (background_tasks w
                 ++ [mkTask (u_email u) (username u) base_url])))
    /\ (is_confirmed u = true ->
        routes_auth.request_email (u_email u) base_url w
        = (Ok "Your email is already confirmed", w)).
Proof.
  intros w u base_url Hwf Hu. split; intros Hc;
    unfold routes_auth.request_email, bind;
    rewrite (get_user_by_email_registered w u Hwf Hu);
    cbv beta iota delta [deref ret is_set]; rewrite Hc; reflexivity.
Qed.

Lemma request_email_registered_witness :
  let w := Sample.world Sample.permissive (mkDate 2024 6 25) in
  background_tasks
    (snd (routes_auth.request_email "bob@example.com" "http://testserver/" w))
  = [mkTask "bob@example.com" "bob" "http://testserver/"]
  /\ routes_auth.request_email "ann@example.com" "http://testserver/" w
     = (Ok "Your email is already confirmed", w).
Proof.
  intros w.
  assert (Hwf : wf_users (users w)) by (split; solve_NoDup).
  split.
  - exact (f_equal (fun r => background_tasks (snd r))
                   (proj1 (request_email_registered
                             w Sample.bob "http://testserver/" Hwf
                             (or_intror (or_introl eq_refl))) eq_refl)).
  - exact (proj2 (request_email_registered
                    w Sample.ann "http://testserver/" Hwf (or_introl eq_refl))
                 eq_refl).
Defined.

(** ** Reading a stored contact *)

(** X20. On a table with unique keys, the read route returns a stored
    contact to its owner, by its key, and leaves the storage as it was. *)
Theorem read_contact_returns_own :
  forall (w : World) (c : Contact) (user : User),
    wf_contacts (contacts w) -> In c (contacts w) ->
    user_id c = Some (u_id user) ->
    routes_contacts.read_contact (id c) user w = (Ok c, w).
Proof.
  intros w c user ND Hc Ho.
  unfold routes_contacts.read_contact, repository_contacts.get_contact,
    bind, get_world, lift.
  rewrite (select_by_id_and_owner (contacts w) c (u_id user) ND Hc Ho).
  reflexivity.
Qed.

Lemma read_contact_returns_own_witness :
  let w := Sample.world Sample.permissive (mkDate 2024 6 25) in
  routes_contacts.read_contact 3 Sample.ann w = (Ok Sample.mark, w).
Proof.
  intros w.
  apply (read_contact_returns_own w Sample.mark Sample.ann).
  - unfold wf_contacts. solve_NoDup.
  - right; right; left; reflexivity.
  - reflexivity.
Defined.
